(** * cmake_parser: from CMake export files to cc_library rules

    A shallow embedding of [toolchain/cmake_parser.py] and the properties
    of its two functions, [extract_libraries] and [cmake_parser], and of
    the loop of the script.

    - A Python [str] is a [string]; a character is its code point,
      below 256.  The classes [\w] and [\s] are those of a [str]
      pattern on these code points.
    - The three regular expressions of the source are written in the
      type [regex] and run by [rmatch], a backtracking matcher with the
      priorities of Python's [re]: a greedy repeat tries the longest run
      first, a lazy one the shortest, and the first success wins.
      [scan] is the loop of [re.findall] and [re.sub]: matches are found
      from left to right and do not overlap.
    - A [dict] is an association list in insertion order, since
      [cmake_parser] emits the blocks in that order.
    - [cmake_parser] takes the file system as a function from paths to
      contents; [bzl_of_contents] is its body once the file is read.
    - [main] is the loop under [__main__], run on the list of file names
      that [parse_args] returns, with the standard output as a string;
      the reading of the command line by [argparse] is not modelled.

    The definitions come first: the runtime, the two functions, then the
    vocabulary of the statements (the classification and the output
    format as the specification words them, sample inputs, files of
    well-formed declarations, the script, exports of a mapping).  The
    lemmas follow, then the claims; further properties of the code close
    the file. *)

From Stdlib Require Import String Ascii List Bool Arith Lia.
Import ListNotations.

Open Scope list_scope.
Open Scope string_scope.
Open Scope nat_scope.

(** ** Characters *)

Definition chr (n : nat) : ascii := ascii_of_nat n.

Definition nl : string := String (chr 10) EmptyString.     (* line feed *)
Definition quote : string := String (chr 34) EmptyString.  (* double quote *)

Definition between (lo hi n : nat) : bool := (lo <=? n) && (n <=? hi).

(** [str.isalnum] on the code points below 256: the ASCII letters and
    digits, and in the upper half the letters, the superscript digits
    and the vulgar fractions of Latin-1. *)
Definition is_alnum (c : ascii) : bool :=
  let n := nat_of_ascii c in
  between 48 57 n || between 65 90 n || between 97 122 n
  || (n =? 170) || (n =? 181) || (n =? 186)
  || between 178 179 n || (n =? 185) || between 188 190 n
  || between 192 214 n || between 216 246 n || between 248 255 n.

(** [\w] of a [str] pattern: alphanumeric or underscore. *)
Definition is_word (c : ascii) : bool :=
  is_alnum c || (nat_of_ascii c =? 95).

(** [\s] of a [str] pattern: the ASCII white space, the four separators
    28..31, NEL and the no-break space. *)
Definition is_space (c : ascii) : bool :=
  let n := nat_of_ascii c in
  between 9 13 n || between 28 32 n || (n =? 133) || (n =? 160).

(** The character sets written in the patterns. *)
Definition not_rparen (c : ascii) : bool := negb (c =? ")")%char.   (* [^\)] *)
Definition space_cr_lf (c : ascii) : bool :=                        (* [\s\r\n] *)
  is_space c || (nat_of_ascii c =? 13) || (nat_of_ascii c =? 10).
Definition dot_all (c : ascii) : bool := true.                      (* . with re.DOTALL *)
Definition dot (c : ascii) : bool := negb (nat_of_ascii c =? 10).   (* . without it *)

(** ** Patterns and the backtracking matcher *)

Inductive regex : Type :=
| Lit (l : string)                   (* literal characters *)
| Star (cls : ascii -> bool)         (* [cls]*   greedy *)
| Plus (cls : ascii -> bool)         (* [cls]+   greedy *)
| LazyStar (cls : ascii -> bool)     (* [cls]*?  lazy *)
| Group (r : regex)                  (* ( r )    capturing *)
| Seq (r1 r2 : regex).               (* r1 r2 *)

Notation "r1 ;; r2" := (Seq r1 r2) (at level 61, right associativity).

(** [strip l s]: the rest of [s] after the literal [l], when [s] starts
    with it. *)
Fixpoint strip (l s : string) : option string :=
  match l with
  | EmptyString => Some s
  | String a l' =>
      match s with
      | String c s' => if (a =? c)%char then strip l' s' else None
      | EmptyString => None
      end
  end.

(** [take n s]: the first [n] characters of [s]. *)
Fixpoint take (n : nat) (s : string) : string :=
  match n, s with
  | S n', String c s' => String c (take n' s')
  | _, _ => EmptyString
  end.

Section Matcher.
Variable R : Type.

(** Greedy repeat: consume while the class holds, then give back one
    character at a time until the continuation accepts. *)
Fixpoint star_greedy (cls : ascii -> bool) (s : string)
         (k : string -> option R) : option R :=
  match s with
  | String c s' =>
      if cls c
      then match star_greedy cls s' k with
           | Some res => Some res
           | None => k s
           end
      else k s
  | EmptyString => k s
  end.

(** Lazy repeat: try the continuation first, consume one more
    character only when it refuses. *)
Fixpoint star_lazy (cls : ascii -> bool) (s : string)
         (k : string -> option R) : option R :=
  match k s with
  | Some res => Some res
  | None =>
      match s with
      | String c s' => if cls c then star_lazy cls s' k else None
      | EmptyString => None
      end
  end.

(** [rmatch r s caps k]: match [r] at the start of [s]; on success the
    continuation [k] receives the unread rest and the groups closed so
    far, in the order they closed. *)
Fixpoint rmatch (r : regex) (s : string) (caps : list string)
         (k : string -> list string -> option R) : option R :=
  match r with
  | Lit l =>
      match strip l s with
      | Some s' => k s' caps
      | None => None
      end
  | Star cls => star_greedy cls s (fun s' => k s' caps)
  | Plus cls =>
      match s with
      | String c s' =>
          if cls c then star_greedy cls s' (fun s'' => k s'' caps) else None
      | EmptyString => None
      end
  | LazyStar cls => star_lazy cls s (fun s' => k s' caps)
  | Group r1 =>
      rmatch r1 s caps
        (fun s' caps' =>
           k s' (caps' ++ [take (String.length s - String.length s') s])%list)
  | Seq r1 r2 =>
      rmatch r1 s caps (fun s' caps' => rmatch r2 s' caps' k)
  end.
End Matcher.

Arguments star_greedy {R}.
Arguments star_lazy {R}.
Arguments rmatch {R}.

(** A match anchored at the start of [s]: its groups and the text left
    after it. *)
Definition match_at (r : regex) (s : string) : option (list string * string) :=
  rmatch r s [] (fun s' caps => Some (caps, s')).

(** ** Scanning: the loop shared by [re.findall] and [re.sub]

    The scan walks the text from left to right.  Where the pattern
    matches it records the groups and resumes where the match ended;
    elsewhere it passes one character.  [skip] counts the characters of
    the current match still to be passed over. *)

Inductive piece : Type :=
| Hit (caps : list string)   (* a match, with its groups *)
| Gap (c : ascii).           (* a character outside every match *)

Fixpoint scan (r : regex) (skip : nat) (s : string) : list piece :=
  match skip with
  | S n =>
      match s with
      | String _ s' => scan r n s'
      | EmptyString => []
      end
  | O =>
      match match_at r s with
      | Some (caps, rest) =>
          Hit caps ::
          match s with
          | String c s' =>
              match String.length s - String.length rest with
              | S n => scan r n s'
              | O => Gap c :: scan r 0 s'      (* empty match *)
              end
          | EmptyString => []
          end
      | None =>
          match s with
          | String c s' => Gap c :: scan r 0 s'
          | EmptyString => []
          end
      end
  end.

(** [re.findall(r, s)]: the groups of every match, in order. *)
Definition findall (r : regex) (s : string) : list (list string) :=
  flat_map (fun p => match p with Hit caps => [caps] | Gap _ => [] end)
           (scan r 0 s).

(** [re.sub(r, "\1", s)]: every match replaced by its first group. *)
Definition group (n : nat) (caps : list string) : string :=
  nth (n - 1) caps EmptyString.

Definition sub_group1 (r : regex) (s : string) : string :=
  String.concat EmptyString
    (map (fun p => match p with
                   | Hit caps => group 1 caps
                   | Gap c => String c EmptyString
                   end)
         (scan r 0 s)).

(** ** Strings and dictionaries of the Python runtime *)

(** [s.split(sep)] for a one-character separator: the pieces between the
    separators, empty pieces included; never an empty list. *)
Fixpoint split (sep : ascii) (s : string) : list string :=
  match s with
  | EmptyString => [EmptyString]
  | String c s' =>
      if (c =? sep)%char then EmptyString :: split sep s'
      else match split sep s' with
           | w :: ws => String c w :: ws
           | [] => [String c EmptyString]
           end
  end.

(** A [dict] keeps its keys in insertion order; assigning to a key that
    is already there replaces the value and leaves the key in place. *)
Definition dict (V : Type) : Type := list (string * V).

Fixpoint dict_set {V : Type} (d : dict V) (key : string) (v : V) : dict V :=
  match d with
  | [] => [(key, v)]
  | (key', v') :: d' =>
      if (key' =? key)%string then (key', v) :: d'
      else (key', v') :: dict_set d' key v
  end.

Fixpoint dict_get {V : Type} (d : dict V) (key : string) : option V :=
  match d with
  | [] => None
  | (key', v) :: d' => if (key' =? key)%string then Some v else dict_get d' key
  end.

Definition dict_keys {V : Type} (d : dict V) : list string := map fst d.

(** [dict.fromkeys(keys)]: every key once, at its first position. *)
Definition dict_fromkeys (keys : list string) : dict unit :=
  fold_left (fun d key => dict_set d key tt) keys [].

(** ** extract_libraries *)

(** r"add_library\((\w+) [^\)]*\)" *)
Definition add_library_pattern : regex :=
  Lit "add_library(" ;; Group (Plus is_word) ;; Lit " " ;;
  Star not_rparen ;; Lit ")".

(** r'set_target_properties\((\w+) PROPERTIES[\s\r\n]+INTERFACE_LINK_LIBRARIES "(.*?)"[^\)]*\)',
    used with re.DOTALL *)
Definition set_target_properties_pattern : regex :=
  Lit "set_target_properties(" ;; Group (Plus is_word) ;;
  Lit " PROPERTIES" ;; Plus space_cr_lf ;;
  Lit "INTERFACE_LINK_LIBRARIES " ;; Lit quote ;;
  Group (LazyStar dot_all) ;; Lit quote ;;
  Star not_rparen ;; Lit ")".

(** r"\\\$<LINK_ONLY:(.*?)>", used without flags *)
Definition link_only_pattern : regex :=
  Lit "\$<LINK_ONLY:" ;; Group (LazyStar dot) ;; Lit ">".

Definition add_library_matches (contents : string) : list string :=
  map (group 1) (findall add_library_pattern contents).

Definition set_target_properties_pattern_matches (contents : string)
  : list (string * string) :=
  map (fun caps => (group 1 caps, group 2 caps))
      (findall set_target_properties_pattern contents).

(** The body of the second loop: from the quoted string to the list that
    is stored. *)
Definition parse_deps (deps_str : string) : list string :=
  let deps := split ";" deps_str in
  let deps := map (sub_group1 link_only_pattern) deps in
  let deps := dict_keys (dict_fromkeys deps) in
  deps.

(** The bodies of the two loops. *)
Definition declare (result : dict (list string)) (library_name : string)
  : dict (list string) :=
  dict_set result library_name [].

Definition assign (result : dict (list string)) (m : string * string)
  : dict (list string) :=
  let '(library_name, deps_str) := m in
  dict_set result library_name (parse_deps deps_str).

Definition extract_libraries (contents : string) : dict (list string) :=
  let result := [] in
  let result := fold_left declare (add_library_matches contents) result in
  let result :=
    fold_left assign (set_target_properties_pattern_matches contents) result in
  result.

(** ** cmake_parser *)

Definition system_library_map : dict string :=
  [ ("m", "-lm");
    ("ZLIB::ZLIB", "-lz");
    ("Terminfo::terminfo", "-lncurses");
    ("LibEdit::LibEdit", "-ledit");
    ("LibXml2::LibXml2", "-lxml2");
    ("-framework CoreServices", "-framework CoreServices");
    ("rt", "-lrt");
    ("dl", "-ldl");
    ("-lpthread", "-lpthread") ].

Definition dep_map : dict string :=
  [ ("zstd::libzstd_static", "@zstd");
    ("zstd::libzstd_shared", "@zstd") ].

(** The three lists filled by the inner loop. *)
Record dep_lists : Type := {
  link_opts : list string;
  external_deps : list string;
  internal_deps : list string
}.

(** The body of the inner loop; [dep in d] followed by [d[dep]] is one
    lookup. *)
Definition classify_dep (acc : dep_lists) (dep : string) : dep_lists :=
  match dict_get system_library_map dep with
  | Some flag =>
      {| link_opts := (link_opts acc ++ [flag])%list;
         external_deps := external_deps acc;
         internal_deps := internal_deps acc |}
  | None =>
      match dict_get dep_map dep with
      | Some label =>
          {| link_opts := link_opts acc;
             external_deps := (external_deps acc ++ [label])%list;
             internal_deps := internal_deps acc |}
      | None =>
          {| link_opts := link_opts acc;
             external_deps := external_deps acc;
             internal_deps := (internal_deps acc ++ [dep])%list |}
      end
  end.

Definition classify_deps (lib_deps : list string) : dep_lists :=
  fold_left classify_dep lib_deps
            {| link_opts := []; external_deps := []; internal_deps := [] |}.

(** One turn of the outer loop: the block of one library appended to
    [bzl_content]. *)
Definition emit_library (bzl_content : string) (lib : string * list string)
  : string :=
  let '(lib_name, lib_deps) := lib in
  let l := classify_deps lib_deps in
  let bzl_content := bzl_content ++ "cc_library(" ++ nl in
  let bzl_content :=
    bzl_content ++ "    name = " ++ quote ++ "lib_" ++ lib_name ++ quote ++ "," ++ nl in
  let bzl_content := bzl_content ++ "    srcs = [" ++ nl in
  let bzl_content :=
    bzl_content ++ "        " ++ quote ++ "lib/lib" ++ lib_name ++ ".a" ++ quote ++ "," ++ nl in
  let bzl_content := bzl_content ++ "    ]," ++ nl in
  let bzl_content :=
    if negb (List.length (internal_deps l) =? 0)
       || negb (List.length (external_deps l) =? 0)
    then
      let bzl_content := bzl_content ++ "    deps = [" ++ nl in
      let bzl_content :=
        fold_left (fun bzl_content dep =>
                     bzl_content ++ "        " ++ quote ++ ":lib_" ++ dep ++ quote ++ "," ++ nl)
                  (internal_deps l) bzl_content in
      let bzl_content :=
        fold_left (fun bzl_content dep =>
                     bzl_content ++ "        " ++ quote ++ dep ++ quote ++ "," ++ nl)
                  (external_deps l) bzl_content in
      bzl_content ++ "    ]," ++ nl
    else bzl_content in
  let bzl_content :=
    if negb (List.length (link_opts l) =? 0)
    then
      let bzl_content := bzl_content ++ "    linkopts = [" ++ nl in
      let bzl_content :=
        fold_left (fun bzl_content link_opt =>
                     bzl_content ++ "        " ++ quote ++ link_opt ++ quote ++ "," ++ nl)
                  (link_opts l) bzl_content in
      bzl_content ++ "    ]," ++ nl
    else bzl_content in
  bzl_content ++ ")" ++ nl ++ nl.

(** [cmake_parser] from the point where the file has been read. *)
Definition bzl_of_contents (contents : string) : string :=
  let libraries := extract_libraries contents in
  let bzl_content := EmptyString in
  fold_left emit_library libraries bzl_content.

(** [cmake_parser filename], the file system given as the function [fs]
    from paths to contents; a path it does not hold is the unhandled
    error of [open]. *)
Definition cmake_parser (fs : string -> option string) (filename : string)
  : option string :=
  match fs filename with
  | Some contents => Some (bzl_of_contents contents)
  | None => None
  end.

(** ** Vocabulary of the statements *)

(** Every character of [s] satisfies [p]. *)
Fixpoint all_chars (p : ascii -> bool) (s : string) : bool :=
  match s with
  | EmptyString => true
  | String c s' => p c && all_chars p s'
  end.

(** [rest] is empty or starts with a character outside the class. *)
Definition starts_outside (cls : ascii -> bool) (rest : string) : Prop :=
  match rest with
  | EmptyString => True
  | String c _ => cls c = false
  end.

(** The number of occurrences of the character [a] in [s]. *)
Fixpoint occurrences (a : ascii) (s : string) : nat :=
  match s with
  | EmptyString => 0
  | String c s' => (if (c =? a)%char then 1 else 0) + occurrences a s'
  end.

Definition is_not (a : ascii) (c : ascii) : bool := negb (c =? a)%char.

(** The least number of occurrences of [a] in a text matched by [r],
    counting the literals only. *)
Fixpoint literal_occurrences (a : ascii) (r : regex) : nat :=
  match r with
  | Lit l => occurrences a l
  | Star _ | Plus _ | LazyStar _ => 0
  | Group r1 => literal_occurrences a r1
  | Seq r1 r2 => literal_occurrences a r1 + literal_occurrences a r2
  end.

(** The number of groups of a pattern. *)
Fixpoint groups (r : regex) : nat :=
  match r with
  | Lit _ | Star _ | Plus _ | LazyStar _ => 0
  | Group r1 => S (groups r1)
  | Seq r1 r2 => groups r1 + groups r2
  end.

(** The quoted string of the last properties match that names [X]. *)
Fixpoint last_deps_str (X : string) (ms : list (string * string))
  : option string :=
  match ms with
  | [] => None
  | (library_name, deps_str) :: ms' =>
      match last_deps_str X ms' with
      | Some d => Some d
      | None => if (library_name =? X)%string then Some deps_str else None
      end
  end.

(** The classification of a dependency, as the specification words it:
    one of three variants, found by looking the token up in the
    system-flag table, then in the external-reference table. *)
Inductive DependencyClassification : Type :=
| SystemLinkFlag (flag : string)
| ExternalReference (label : string)
| InternalReference (identifier : string).

Definition system_flag_table (dep : string) : option string :=
  if (dep =? "m")%string then Some "-lm"
  else if (dep =? "ZLIB::ZLIB")%string then Some "-lz"
  else if (dep =? "Terminfo::terminfo")%string then Some "-lncurses"
  else if (dep =? "LibEdit::LibEdit")%string then Some "-ledit"
  else if (dep =? "LibXml2::LibXml2")%string then Some "-lxml2"
  else if (dep =? "-framework CoreServices")%string
       then Some "-framework CoreServices"
  else if (dep =? "rt")%string then Some "-lrt"
  else if (dep =? "dl")%string then Some "-ldl"
  else if (dep =? "-lpthread")%string then Some "-lpthread"
  else None.

Definition external_reference_table (dep : string) : option string :=
  if (dep =? "zstd::libzstd_static")%string then Some "@zstd"
  else if (dep =? "zstd::libzstd_shared")%string then Some "@zstd"
  else None.

Definition classification (dep : string) : DependencyClassification :=
  match system_flag_table dep with
  | Some flag => SystemLinkFlag flag
  | None =>
      match external_reference_table dep with
      | Some label => ExternalReference label
      | None => InternalReference dep
      end
  end.

(** The three sub-lists of a dependency list, each in the order of the
    list. *)
Definition link_flags (lib_deps : list string) : list string :=
  flat_map (fun dep => match classification dep with
                       | SystemLinkFlag flag => [flag]
                       | _ => []
                       end) lib_deps.

Definition external_refs (lib_deps : list string) : list string :=
  flat_map (fun dep => match classification dep with
                       | ExternalReference label => [label]
                       | _ => []
                       end) lib_deps.

Definition internal_refs (lib_deps : list string) : list string :=
  flat_map (fun dep => match classification dep with
                       | InternalReference identifier => [identifier]
                       | _ => []
                       end) lib_deps.

(** The output format: an attribute is a bracketed list with one quoted
    item per line, and is left out when it has no item. *)
Definition item_line (item : string) : string :=
  "        " ++ quote ++ item ++ quote ++ "," ++ nl.

Definition item_lines (items : list string) : string :=
  String.concat EmptyString (map item_line items).

Definition attribute (name : string) (items : list string) : string :=
  match items with
  | [] => EmptyString
  | _ :: _ => "    " ++ name ++ " = [" ++ nl ++ item_lines items ++ "    ]," ++ nl
  end.

Definition local_reference (identifier : string) : string :=
  ":lib_" ++ identifier.

Definition rule_block (lib_name : string) (deps linkopts : list string)
  : string :=
  "cc_library(" ++ nl ++
  "    name = " ++ quote ++ "lib_" ++ lib_name ++ quote ++ "," ++ nl ++
  "    srcs = [" ++ nl ++
  item_line ("lib/lib" ++ lib_name ++ ".a") ++
  "    ]," ++ nl ++
  attribute "deps" deps ++
  attribute "linkopts" linkopts ++
  ")" ++ nl ++ nl.

(** The block of one entry of the mapping. *)
Definition block_of (lib : string * list string) : string :=
  rule_block (fst lib)
    (map local_reference (internal_refs (snd lib)) ++ external_refs (snd lib))%list
    (link_flags (snd lib)).

(** [y] is none of the keys. *)
Definition absent (keys : list string) (y : string) : bool :=
  negb (existsb (String.eqb y) keys).

(** The keys after an assignment to [key]: a new key goes last. *)
Definition keys_step (keys : list string) (key : string) : list string :=
  if existsb (String.eqb key) keys then keys else (keys ++ [key])%list.

(** The first occurrence of every element, in order. *)
Fixpoint first_occurrences (l : list string) : list string :=
  match l with
  | [] => []
  | x :: l' =>
      x :: filter (fun y => negb (y =? x)%string) (first_occurrences l')
  end.

(** ** Sample inputs *)

(** A declaration [add_library(name args)] and a declaration
    [set_target_properties(name PROPERTIES / INTERFACE_LINK_LIBRARIES
    "deps" / )] laid out as CMake exports them. *)
Definition add_library_decl (name args : string) : string :=
  "add_library(" ++ name ++ " " ++ args ++ ")" ++ nl.

Definition properties_decl (name deps : string) : string :=
  "set_target_properties(" ++ name ++ " PROPERTIES" ++ nl ++
  "  INTERFACE_LINK_LIBRARIES " ++ quote ++ deps ++ quote ++ nl ++
  ")" ++ nl.

(** The same declaration with the closing quote left out. *)
Definition unterminated_decl (name deps : string) : string :=
  "set_target_properties(" ++ name ++ " PROPERTIES" ++ nl ++
  "  INTERFACE_LINK_LIBRARIES " ++ quote ++ deps ++ nl ++
  ")" ++ nl.

Definition round_trip_input : string :=
  "add_library(Foo STATIC IMPORTED)" ++ nl ++
  "set_target_properties(Foo PROPERTIES" ++ nl ++
  "  INTERFACE_LINK_LIBRARIES " ++ quote ++ "Bar;ZLIB::ZLIB" ++ quote ++ nl ++
  ")" ++ nl.

Definition round_trip_output : string :=
  "cc_library(" ++ nl ++
  "    name = " ++ quote ++ "lib_Foo" ++ quote ++ "," ++ nl ++
  "    srcs = [" ++ nl ++
  "        " ++ quote ++ "lib/libFoo.a" ++ quote ++ "," ++ nl ++
  "    ]," ++ nl ++
  "    deps = [" ++ nl ++
  "        " ++ quote ++ ":lib_Bar" ++ quote ++ "," ++ nl ++
  "    ]," ++ nl ++
  "    linkopts = [" ++ nl ++
  "        " ++ quote ++ "-lz" ++ quote ++ "," ++ nl ++
  "    ]," ++ nl ++
  ")" ++ nl ++
  nl.

(** Properties for a library that no [add_library] declares. *)
Definition undeclared_input : string := properties_decl "Foo" "Bar".

(** Two properties declarations for the same library. *)
Definition redeclared_input : string :=
  add_library_decl "X" "STATIC IMPORTED" ++
  properties_decl "X" "A;B;A;C" ++
  properties_decl "X" "D".

(** A declaration whose quote is never closed, followed by a well-formed
    one. *)
Definition unterminated_input : string :=
  unterminated_decl "Y" "A;B" ++ properties_decl "X" "C;D".

(** [add_library(Foo)] followed by the properties of [Foo]. *)
Definition bare_input : string :=
  "add_library(Foo)" ++ nl ++ properties_decl "Foo" "Bar".

(** [add_library(X ...)] before, after, and on both sides of the
    properties of [X]. *)
Definition declared_before : string :=
  add_library_decl "X" "STATIC IMPORTED" ++ properties_decl "X" "A;B".

Definition declared_after : string :=
  properties_decl "X" "A;B" ++ add_library_decl "X" "STATIC IMPORTED".

Definition declared_around : string :=
  add_library_decl "X" "STATIC IMPORTED" ++ properties_decl "X" "A;B" ++
  add_library_decl "X" "STATIC IMPORTED".

(** Tokens whose inner part holds a line feed, or a [>]. *)
Definition link_only (inner : string) : string :=
  "\$<LINK_ONLY:" ++ inner ++ ">".

(** ** Export files

    A CMake export file seen as a sequence of declarations, each on its
    own lines. *)
Inductive declaration : Type :=
| AddLibrary (name args : string)
| SetTargetProperties (name deps : string).

Definition declaration_text (d : declaration) : string :=
  match d with
  | AddLibrary name args => add_library_decl name args
  | SetTargetProperties name deps => properties_decl name deps
  end.

Definition file_text (ds : list declaration) : string :=
  fold_right (fun d text => declaration_text d ++ text) EmptyString ds.

Definition nonempty (s : string) : bool :=
  match s with
  | EmptyString => false
  | String _ _ => true
  end.

(** A name is a non-empty run of word characters; the arguments hold no
    parenthesis; the quoted list holds no quote and no opening
    parenthesis. *)
Definition well_formed (d : declaration) : bool :=
  match d with
  | AddLibrary name args =>
      nonempty name && all_chars is_word name
      && all_chars (is_not "(") args && all_chars (is_not ")") args
  | SetTargetProperties name deps =>
      nonempty name && all_chars is_word name
      && all_chars (is_not "(") deps && all_chars (is_not (chr 34)) deps
  end.

Definition declared_names (ds : list declaration) : list string :=
  flat_map (fun d => match d with
                     | AddLibrary name _ => [name]
                     | SetTargetProperties _ _ => []
                     end) ds.

Definition declared_properties (ds : list declaration)
  : list (string * string) :=
  flat_map (fun d => match d with
                     | AddLibrary _ _ => []
                     | SetTargetProperties name deps => [(name, deps)]
                     end) ds.

(** ** The script

    The loop under [__main__], from the list [args.filenames] that
    [parse_args] returns.  [print] appends its argument and a line feed
    to the standard output; the error of [open] ends the run with what
    was printed before it. *)
Inductive outcome : Type :=
| Finished
| OpenFailed (filename : string).

Definition print (stdout text : string) : string := stdout ++ text ++ nl.

Fixpoint main_loop (fs : string -> option string) (filenames : list string)
         (stdout : string) : string * outcome :=
  match filenames with
  | [] => (stdout, Finished)
  | filename :: filenames' =>
      let stdout := print stdout ("# Source: " ++ filename) in
      match cmake_parser fs filename with
      | Some bzl => main_loop fs filenames' (print stdout bzl)
      | None => (stdout, OpenFailed filename)
      end
  end.

Definition main (fs : string -> option string) (filenames : list string)
  : string * outcome :=
  main_loop fs filenames EmptyString.

(** What the script prints for one file that it can read. *)
Definition file_report (filename contents : string) : string :=
  "# Source: " ++ filename ++ nl ++ bzl_of_contents contents ++ nl.

(** What the script prints for one file, nothing when it cannot be
    read. *)
Definition report_of (fs : string -> option string) (filename : string)
  : string :=
  match fs filename with
  | Some contents => file_report filename contents
  | None => EmptyString
  end.

Definition reports (fs : string -> option string) (filenames : list string)
  : string :=
  String.concat EmptyString (map (report_of fs) filenames).

Definition readable (fs : string -> option string) (filename : string)
  : bool :=
  match fs filename with
  | Some _ => true
  | None => false
  end.

(** ** Exports

    The declarations of a mapping, as an export file lists them: for
    each library its [add_library] and then its properties, the
    dependencies joined by semicolons. *)
Definition library_declarations (lib : string * list string)
  : list declaration :=
  [ AddLibrary (fst lib) "STATIC IMPORTED";
    SetTargetProperties (fst lib) (String.concat ";" (snd lib)) ].

Definition export_file (libraries : dict (list string)) : list declaration :=
  flat_map library_declarations libraries.

(** A token that the extractor stores as it is written. *)
Definition plain_char (c : ascii) : bool :=
  is_not ";" c && is_not (chr 34) c && is_not "(" c && is_not ">" c.

(** No two elements are equal. *)
Fixpoint distinct (l : list string) : bool :=
  match l with
  | [] => true
  | x :: l' => absent l' x && distinct l'
  end.

(** A library that an export can carry: a name, and a non-empty list of
    distinct plain tokens. *)
Definition exportable (lib : string * list string) : bool :=
  nonempty (fst lib) && all_chars is_word (fst lib)
  && negb (List.length (snd lib) =? 0)
  && distinct (snd lib) && forallb (all_chars plain_char) (snd lib).

(** The entry of [X] read off the matches: the parsed list of its last
    properties match, or the empty list. *)
Definition entry_of (contents X : string) : list string :=
  match last_deps_str X (set_target_properties_pattern_matches contents) with
  | Some deps_str => parse_deps deps_str
  | None => []
  end.

(** [key in d]. *)
Definition contains {V : Type} (d : dict V) (key : string) : bool :=
  match dict_get d key with
  | Some _ => true
  | None => false
  end.

(** The groups of a match, or the character passed, are made of
    characters of [p]. *)
Definition piece_within (p : ascii -> bool) (x : piece) : bool :=
  match x with
  | Hit caps => forallb (all_chars p) caps
  | Gap c => p c
  end.

(** A properties declaration in any layout: the white space [ws]
    before the property, and the text [more] between the closing quote
    and the parenthesis. *)
Definition properties_text (name ws deps more : string) : string :=
  "set_target_properties(" ++ name ++ " PROPERTIES" ++ ws ++
  "INTERFACE_LINK_LIBRARIES " ++ quote ++ deps ++ quote ++ more ++ ")".

(** ** Strings *)

Lemma append_nil_r (s : string) : s ++ EmptyString = s.
Proof. induction s as [|c s IH]; simpl; [reflexivity | now rewrite IH]. Qed.

Lemma append_assoc (a b c : string) : (a ++ b) ++ c = a ++ (b ++ c).
Proof. induction a as [|x a IH]; simpl; [reflexivity | now rewrite IH]. Qed.

Lemma length_append (a b : string) :
  String.length (a ++ b) = String.length a + String.length b.
Proof. induction a as [|x a IH]; simpl; [reflexivity | now rewrite IH]. Qed.

Lemma take_append (m s : string) : take (String.length m) (m ++ s) = m.
Proof. induction m as [|x m IH]; simpl; [now destruct s | now rewrite IH]. Qed.

Lemma take_consumed (m s : string) :
  take (String.length (m ++ s) - String.length s) (m ++ s) = m.
Proof.
  rewrite length_append.
  replace (String.length m + String.length s - String.length s)
    with (String.length m) by lia.
  apply take_append.
Qed.

Lemma strip_append (l s : string) : strip l (l ++ s) = Some s.
Proof.
  induction l as [|a l IH]; simpl; [reflexivity|].
  now rewrite Ascii.eqb_refl.
Qed.

Lemma strip_inv (l s s' : string) : strip l s = Some s' -> s = l ++ s'.
Proof.
  revert s; induction l as [|a l IH]; simpl; intros s H.
  - now inversion H.
  - destruct s as [|c s]; [discriminate|].
    destruct (Ascii.eqb_spec a c) as [->|]; [|discriminate].
    now rewrite (IH _ H).
Qed.

Lemma occurrences_append (a : ascii) (s t : string) :
  occurrences a (s ++ t) = occurrences a s + occurrences a t.
Proof. induction s as [|c s IH]; simpl; [reflexivity | rewrite IH; lia]. Qed.

Lemma all_chars_append (p : ascii -> bool) (s t : string) :
  all_chars p (s ++ t) = all_chars p s && all_chars p t.
Proof.
  induction s as [|c s IH]; simpl; [reflexivity|].
  now rewrite IH, andb_assoc.
Qed.

Lemma all_not_occurrences (a : ascii) (s : string) :
  all_chars (is_not a) s = true -> occurrences a s = 0.
Proof.
  induction s as [|c s IH]; simpl; [reflexivity|].
  unfold is_not at 1. intros H. apply andb_true_iff in H as [Hc Hs].
  apply negb_true_iff in Hc. rewrite Hc. simpl. auto.
Qed.

Lemma all_chars_weaken (p q : ascii -> bool) (s : string) :
  (forall c, p c = true -> q c = true) ->
  all_chars p s = true -> all_chars q s = true.
Proof.
  intros Hpq. induction s as [|c s IH]; simpl; [reflexivity|].
  intros H. apply andb_true_iff in H as [Hc Hs].
  now rewrite (Hpq _ Hc), IH.
Qed.

(** ** The matcher reads a prefix *)

Section MatcherFacts.
Context {R : Type}.

(** A repeat hands to its continuation a suffix of its input; the
    characters it passed over all belong to the class. *)
Lemma star_greedy_inv cls s (k : string -> option R) res :
  star_greedy cls s k = Some res ->
  exists m s', s = m ++ s' /\ all_chars cls m = true /\ k s' = Some res.
Proof.
  induction s as [|c s IH]; simpl; intros H.
  - now exists EmptyString, EmptyString.
  - destruct (cls c) eqn:Hc.
    + destruct (star_greedy cls s k) as [res'|] eqn:Hrec.
      * inversion H; subst res'.
        destruct (IH eq_refl) as (m & s' & -> & Hm & Hk).
        exists (String c m), s'. simpl. now rewrite Hc, Hm.
      * now exists EmptyString, (String c s).
    + now exists EmptyString, (String c s).
Qed.

Lemma star_lazy_inv cls s (k : string -> option R) res :
  star_lazy cls s k = Some res ->
  exists m s', s = m ++ s' /\ all_chars cls m = true /\ k s' = Some res.
Proof.
  induction s as [|c s IH]; simpl; intros H.
  - destruct (k EmptyString) eqn:Hk; [|discriminate].
    inversion H; subst. now exists EmptyString, EmptyString.
  - destruct (k (String c s)) eqn:Hk.
    + inversion H; subst. now exists EmptyString, (String c s).
    + destruct (cls c) eqn:Hc; [|discriminate].
      destruct (IH H) as (m & s' & -> & Hm & Hk').
      exists (String c m), s'. simpl. now rewrite Hc, Hm.
Qed.

(** A successful match splits the text into the part read, which holds
    every literal of the pattern, and the rest given to the
    continuation together with one more group per [Group]. *)
Lemma rmatch_inv (a : ascii) r :
  forall s caps (k : string -> list string -> option R) res,
    rmatch r s caps k = Some res ->
    exists m s' caps',
      s = m ++ s' /\ k s' caps' = Some res /\
      literal_occurrences a r <= occurrences a m /\
      List.length caps' = List.length caps + groups r.
Proof.
  induction r as [l|cls|cls|cls|r1 IH1|r1 IH1 r2 IH2];
    simpl; intros s caps k res H.
  - destruct (strip l s) as [s'|] eqn:Hs; [|discriminate].
    apply strip_inv in Hs. exists l, s', caps. repeat split; auto; lia.
  - apply star_greedy_inv in H as (m & s' & -> & _ & Hk).
    exists m, s', caps. repeat split; auto; lia.
  - destruct s as [|c s]; [discriminate|].
    destruct (cls c); [|discriminate].
    apply star_greedy_inv in H as (m & s' & -> & _ & Hk).
    exists (String c m), s', caps. repeat split; auto; lia.
  - apply star_lazy_inv in H as (m & s' & -> & _ & Hk).
    exists m, s', caps. repeat split; auto; lia.
  - apply IH1 in H as (m & s' & caps' & -> & Hk & Hocc & Hlen).
    eexists m, s', _. repeat split; [exact Hk | exact Hocc |].
    rewrite length_app, Hlen. simpl. lia.
  - apply IH1 in H as (m1 & s1 & caps1 & -> & Hk1 & Hocc1 & Hlen1).
    apply IH2 in Hk1 as (m2 & s2 & caps2 & -> & Hk2 & Hocc2 & Hlen2).
    exists (m1 ++ m2), s2, caps2. rewrite append_assoc.
    repeat split; auto.
    + rewrite occurrences_append. lia.
    + lia.
Qed.
End MatcherFacts.

Lemma match_at_inv (a : ascii) r s caps rest :
  match_at r s = Some (caps, rest) ->
  exists m, s = m ++ rest /\
            literal_occurrences a r <= occurrences a m /\
            List.length caps = groups r.
Proof.
  unfold match_at. intros H.
  apply (rmatch_inv a) in H as (m & s' & caps' & -> & Hk & Hocc & Hlen).
  inversion Hk; subst. exists m. now repeat split.
Qed.

(** ** Runs of a repeat *)

Section RepeatFacts.
Context {R : Type}.

(** A lazy repeat steps over a run of the class on which the
    continuation refuses every suffix. *)
Lemma star_lazy_run cls m rest (k : string -> option R) :
  all_chars cls m = true ->
  (forall m1 c m2, m = m1 ++ String c m2 -> k (String c m2 ++ rest) = None) ->
  star_lazy cls (m ++ rest) k = star_lazy cls rest k.
Proof.
  induction m as [|c m IH]; simpl; intros Hm Hk; [reflexivity|].
  apply andb_true_iff in Hm as [Hc Hm].
  rewrite (Hk EmptyString c m eq_refl), Hc.
  apply IH; [exact Hm|].
  intros m1 c' m2 ->. apply (Hk (String c m1) c' m2). reflexivity.
Qed.

(** A greedy repeat fails when the continuation refuses every point of
    the run it can reach. *)
Lemma star_greedy_stuck cls m rest (k : string -> option R) :
  all_chars cls m = true ->
  (forall m1 m2, m = m1 ++ m2 -> k (m2 ++ rest) = None) ->
  starts_outside cls rest ->
  star_greedy cls (m ++ rest) k = None.
Proof.
  induction m as [|c m IH]; simpl; intros Hm Hk Hrest.
  - specialize (Hk EmptyString EmptyString eq_refl). simpl in Hk.
    destruct rest as [|c rest]; simpl; [exact Hk|].
    now rewrite Hrest.
  - apply andb_true_iff in Hm as [Hc Hm]. rewrite Hc.
    rewrite IH; [| exact Hm | | exact Hrest].
    + apply (Hk EmptyString (String c m)). reflexivity.
    + intros m1 m2 ->. apply (Hk (String c m1) m2). reflexivity.
Qed.
(** A greedy repeat takes the whole run of its class when the
    continuation accepts what follows the run. *)
Lemma star_greedy_max cls m rest (k : string -> option R) res :
  all_chars cls m = true ->
  starts_outside cls rest ->
  k rest = Some res ->
  star_greedy cls (m ++ rest) k = Some res.
Proof.
  intros Hm Hrest Hk. induction m as [|c m IH]; simpl.
  - destruct rest as [|c rest]; simpl; [exact Hk|]. now rewrite Hrest.
  - simpl in Hm. apply andb_true_iff in Hm as [Hc Hm].
    now rewrite Hc, (IH Hm).
Qed.
End RepeatFacts.

(** ** The scan, match by match *)

Lemma scan_skip r m rest : scan r (String.length m) (m ++ rest) = scan r 0 rest.
Proof. induction m as [|c m IH]; simpl; [reflexivity | exact IH]. Qed.

Lemma scan_cons r c s :
  scan r 0 (String c s) =
  match match_at r (String c s) with
  | Some (caps, rest) =>
      Hit caps ::
      match String.length (String c s) - String.length rest with
      | S n => scan r n s
      | O => Gap c :: scan r 0 s
      end
  | None => Gap c :: scan r 0 s
  end.
Proof. reflexivity. Qed.

Lemma scan_hit r s caps rest :
  match_at r s = Some (caps, rest) ->
  String.length rest < String.length s ->
  scan r 0 s = Hit caps :: scan r 0 rest.
Proof.
  intros H Hlen.
  destruct (match_at_inv "a" _ _ _ _ H) as (m & Hs & _ & _).
  destruct s as [|c s]; [simpl in Hlen; lia|].
  destruct m as [|c' m].
  - simpl in Hs. subst rest. lia.
  - simpl in Hs. inversion Hs; subst c' s.
    rewrite scan_cons, H.
    replace (String.length (String c (m ++ rest)) - String.length rest)
      with (S (String.length m))
      by (change (String c (m ++ rest)) with (String c m ++ rest);
          rewrite length_append; simpl String.length; lia).
    now rewrite scan_skip.
Qed.

Lemma scan_gap r c s :
  match_at r (String c s) = None -> scan r 0 (String c s) = Gap c :: scan r 0 s.
Proof. intros H. simpl. now rewrite H. Qed.

Lemma scan_end r : match_at r EmptyString = None -> scan r 0 EmptyString = [].
Proof. intros H. simpl. now rewrite H. Qed.

Lemma findall_hit r s caps rest :
  match_at r s = Some (caps, rest) ->
  String.length rest < String.length s ->
  findall r s = caps :: findall r rest.
Proof. intros H Hlen. unfold findall. now rewrite (scan_hit _ _ _ _ H Hlen). Qed.

Lemma findall_gap r c s :
  match_at r (String c s) = None -> findall r (String c s) = findall r s.
Proof. intros H. unfold findall. now rewrite (scan_gap _ _ _ H). Qed.

Lemma concat_cons (x : string) (l : list string) :
  String.concat EmptyString (x :: l) = x ++ String.concat EmptyString l.
Proof. destruct l; simpl; [now rewrite append_nil_r | reflexivity]. Qed.

Lemma sub_group1_hit r s caps rest :
  match_at r s = Some (caps, rest) ->
  String.length rest < String.length s ->
  sub_group1 r s = group 1 caps ++ sub_group1 r rest.
Proof.
  intros H Hlen. unfold sub_group1. rewrite (scan_hit _ _ _ _ H Hlen).
  rewrite map_cons. apply concat_cons.
Qed.

Lemma sub_group1_gap r c s :
  match_at r (String c s) = None ->
  sub_group1 r (String c s) = String c (sub_group1 r s).
Proof.
  intros H. unfold sub_group1. rewrite (scan_gap _ _ _ H).
  rewrite map_cons. apply concat_cons.
Qed.

(** A text that holds fewer occurrences of a character than the literals
    of the pattern do has no match at all. *)
Lemma match_at_too_few a r s :
  occurrences a s < literal_occurrences a r -> match_at r s = None.
Proof.
  intros Hlt. destruct (match_at r s) as [[caps rest]|] eqn:H; [|reflexivity].
  destruct (match_at_inv a _ _ _ _ H) as (m & -> & Hocc & _).
  rewrite occurrences_append in Hlt. lia.
Qed.

Lemma scan_too_few a r s :
  occurrences a s < literal_occurrences a r ->
  scan r 0 s = map Gap (list_ascii_of_string s).
Proof.
  induction s as [|c s IH]; intros Hlt.
  - apply scan_end. now apply (match_at_too_few a).
  - rewrite scan_gap by now apply (match_at_too_few a).
    simpl. rewrite IH; [reflexivity|]. simpl in Hlt. lia.
Qed.

Lemma findall_too_few a r s :
  occurrences a s < literal_occurrences a r -> findall r s = [].
Proof.
  intros Hlt. unfold findall. rewrite (scan_too_few a) by exact Hlt.
  induction (list_ascii_of_string s); simpl; auto.
Qed.

Lemma sub_group1_too_few a r s :
  occurrences a s < literal_occurrences a r -> sub_group1 r s = s.
Proof.
  intros Hlt. unfold sub_group1. rewrite (scan_too_few a) by exact Hlt.
  clear Hlt. induction s as [|c s IH]; [reflexivity|].
  cbn [list_ascii_of_string map]. rewrite concat_cons, IH. reflexivity.
Qed.

(** ** Character classes *)

Lemma word_char_plain (c : ascii) :
  is_word c = true ->
  (c =? " ")%char = false /\ (c =? "(")%char = false /\
  (c =? ")")%char = false /\ (c =? chr 34)%char = false.
Proof.
  destruct c as [[] [] [] [] [] [] [] []]; vm_compute; intros H;
    (discriminate H || now repeat split).
Qed.

Lemma space_char_plain (c : ascii) :
  space_cr_lf c = true ->
  (c =? "(")%char = false /\ (c =? ")")%char = false /\
  (c =? chr 34)%char = false.
Proof.
  destruct c as [[] [] [] [] [] [] [] []]; vm_compute; intros H;
    (discriminate H || now repeat split).
Qed.

Lemma word_no_quote (s : string) :
  all_chars is_word s = true -> occurrences (chr 34) s = 0.
Proof.
  intros H. apply all_not_occurrences.
  apply (all_chars_weaken is_word); [|exact H].
  intros c Hc. unfold is_not. now rewrite (proj2 (proj2 (proj2 (word_char_plain c Hc)))).
Qed.

Lemma word_no_lparen (s : string) :
  all_chars is_word s = true -> occurrences "(" s = 0.
Proof.
  intros H. apply all_not_occurrences.
  apply (all_chars_weaken is_word); [|exact H].
  intros c Hc. unfold is_not. now rewrite (proj1 (proj2 (word_char_plain c Hc))).
Qed.

Lemma space_no_quote (s : string) :
  all_chars space_cr_lf s = true -> occurrences (chr 34) s = 0.
Proof.
  intros H. apply all_not_occurrences.
  apply (all_chars_weaken space_cr_lf); [|exact H].
  intros c Hc. unfold is_not. now rewrite (proj2 (proj2 (space_char_plain c Hc))).
Qed.

(** ** The three patterns on a declaration *)

Lemma rmatch_lit {R : Type} l r s caps (k : string -> list string -> option R) :
  rmatch (Lit l ;; r) (l ++ s) caps k = rmatch r s caps k.
Proof. simpl. now rewrite strip_append. Qed.

(** [add_library\((\w+) ] needs a space right after the identifier: on
    an identifier closed at once by the parenthesis every length the
    greedy [\w+] can give back to still ends before a character that is
    not a space. *)
Lemma add_library_needs_space (name rest : string) :
  all_chars is_word name = true ->
  match_at add_library_pattern ("add_library(" ++ name ++ ")" ++ rest) = None.
Proof.
  intros Hname. unfold match_at, add_library_pattern.
  rewrite rmatch_lit.
  destruct name as [|c name]; [reflexivity|].
  cbn [all_chars] in Hname. apply andb_true_iff in Hname as [Hc Hname].
  cbn [rmatch append]. rewrite Hc.
  apply star_greedy_stuck; [exact Hname | | reflexivity].
  intros m1 m2 ->. rewrite all_chars_append in Hname.
  apply andb_true_iff in Hname as [_ Hm2].
  destruct m2 as [|c2 m2]; [reflexivity|].
  cbn [all_chars] in Hm2. apply andb_true_iff in Hm2 as [Hc2 _].
  destruct (word_char_plain c2 Hc2) as [Hsp _].
  cbn [rmatch append strip]. rewrite Ascii.eqb_sym in Hsp. now rewrite Hsp.
Qed.

(** The generator expression: [\\\$<LINK_ONLY:(.*?)>] captures the text
    up to the first [>], provided no line feed comes before it. *)
Lemma link_only_match (inner rest : string) :
  all_chars dot inner = true ->
  all_chars (is_not ">") inner = true ->
  match_at link_only_pattern ("\$<LINK_ONLY:" ++ inner ++ ">" ++ rest)
  = Some ([inner], rest).
Proof.
  intros Hdot Hgt. unfold match_at, link_only_pattern.
  rewrite rmatch_lit. cbn [rmatch].
  rewrite star_lazy_run; [| exact Hdot |].
  - cbn [star_lazy append rmatch strip]. rewrite Ascii.eqb_refl.
    change (String ">" rest) with (">" ++ rest).
    now rewrite take_consumed.
  - intros m1 c m2 ->. rewrite all_chars_append in Hgt.
    apply andb_true_iff in Hgt as [_ Hgt]. cbn [all_chars] in Hgt.
    apply andb_true_iff in Hgt as [Hc _]. unfold is_not in Hc.
    apply negb_true_iff in Hc.
    cbn [append rmatch strip]. rewrite Ascii.eqb_sym in Hc. now rewrite Hc.
Qed.

Lemma link_only_rewritten (inner : string) :
  all_chars dot inner = true ->
  all_chars (is_not ">") inner = true ->
  sub_group1 link_only_pattern ("\$<LINK_ONLY:" ++ inner ++ ">") = inner.
Proof.
  intros Hdot Hgt.
  rewrite (sub_group1_hit _ _ [inner] EmptyString).
  - apply append_nil_r.
  - rewrite <- (link_only_match inner EmptyString Hdot Hgt).
    reflexivity.
  - simpl. lia.
Qed.

Lemma link_only_untouched (s : string) :
  all_chars (is_not ">") s = true ->
  sub_group1 link_only_pattern s = s.
Proof.
  intros H. apply (sub_group1_too_few ">").
  rewrite (all_not_occurrences _ _ H). vm_compute. lia.
Qed.

(** ** Dictionaries *)

Section DictFacts.
Context {V : Type}.
Implicit Types (d : dict V) (v : V).

Lemma dict_get_set_same d key v : dict_get (dict_set d key v) key = Some v.
Proof.
  induction d as [|[key' v'] d IH]; simpl.
  - now rewrite String.eqb_refl.
  - destruct (key' =? key)%string eqn:E; simpl; now rewrite E.
Qed.

Lemma dict_get_set_other d key v X :
  key <> X -> dict_get (dict_set d key v) X = dict_get d X.
Proof.
  intros Hne. induction d as [|[key' v'] d IH]; simpl.
  - now rewrite (proj2 (String.eqb_neq key X) Hne).
  - destruct (String.eqb_spec key' key) as [->|Hk]; simpl.
    + now rewrite (proj2 (String.eqb_neq key X) Hne).
    + now rewrite IH.
Qed.

Lemma dict_get_set d key v X :
  dict_get (dict_set d key v) X
  = if (key =? X)%string then Some v else dict_get d X.
Proof.
  destruct (String.eqb_spec key X) as [->|Hne].
  - apply dict_get_set_same.
  - now apply dict_get_set_other.
Qed.

Lemma dict_get_keys d X : dict_get d X <> None <-> In X (dict_keys d).
Proof.
  induction d as [|[key v] d IH]; simpl.
  - split; [congruence | tauto].
  - destruct (String.eqb_spec key X) as [->|Hne].
    + split; [intros _; now left | intros _; discriminate].
    + rewrite IH. split; [intros H; now right | now intros [|]].
Qed.

Lemma dict_get_none d X : dict_get d X = None <-> ~ In X (dict_keys d).
Proof.
  rewrite <- dict_get_keys. destruct (dict_get d X) as [v|].
  - split; [discriminate|]. intros H. exfalso. apply H. discriminate.
  - split; [|reflexivity]. intros _ H. now apply H.
Qed.

(** Assigning to a present key leaves the keys as they are; assigning
    to a new key appends it. *)
Lemma dict_keys_set d key v :
  dict_keys (dict_set d key v)
  = match dict_get d key with
    | Some _ => dict_keys d
    | None => (dict_keys d ++ [key])%list
    end.
Proof.
  induction d as [|[key' v'] d IH]; simpl; [reflexivity|].
  destruct (String.eqb_spec key' key) as [->|Hne]; simpl; [reflexivity|].
  rewrite IH. now destruct (dict_get d key).
Qed.

Lemma dict_keys_set_NoDup d key v :
  NoDup (dict_keys d) -> NoDup (dict_keys (dict_set d key v)).
Proof.
  intros Hnd. rewrite dict_keys_set.
  destruct (dict_get d key) eqn:E; [exact Hnd|].
  apply dict_get_none in E.
  apply NoDup_app; [exact Hnd | repeat constructor; auto |].
  intros x Hx [<-|[]]. contradiction.
Qed.
End DictFacts.

(** ** The two loops of extract_libraries *)

Lemma extract_libraries_loops contents :
  extract_libraries contents
  = fold_left assign (set_target_properties_pattern_matches contents)
      (fold_left declare (add_library_matches contents) []).
Proof. reflexivity. Qed.

Lemma declare_get names : forall d X,
  dict_get (fold_left declare names d) X
  = if existsb (String.eqb X) names then Some [] else dict_get d X.
Proof.
  induction names as [|n names IH]; intros d X; simpl; [reflexivity|].
  rewrite IH. unfold declare. rewrite dict_get_set, (String.eqb_sym X n).
  destruct (n =? X)%string; simpl; [|reflexivity].
  now destruct (existsb (String.eqb X) names).
Qed.

Lemma assign_get ms : forall d X,
  dict_get (fold_left assign ms d) X
  = match last_deps_str X ms with
    | Some deps_str => Some (parse_deps deps_str)
    | None => dict_get d X
    end.
Proof.
  induction ms as [|[n ds] ms IH]; intros d X; simpl; [reflexivity|].
  rewrite IH. destruct (last_deps_str X ms); [reflexivity|].
  rewrite dict_get_set. now destruct (n =? X)%string.
Qed.

Lemma declare_NoDup names : forall d,
  NoDup (dict_keys d) -> NoDup (dict_keys (fold_left declare names d)).
Proof.
  induction names as [|n names IH]; intros d H; simpl; [exact H|].
  apply IH. now apply dict_keys_set_NoDup.
Qed.

Lemma assign_NoDup ms : forall d,
  NoDup (dict_keys d) -> NoDup (dict_keys (fold_left assign ms d)).
Proof.
  induction ms as [|[n ds] ms IH]; intros d H; simpl; [exact H|].
  apply IH. now apply dict_keys_set_NoDup.
Qed.

(** The entry of every identifier, read off the two lists of matches. *)
Lemma extract_libraries_get contents X :
  dict_get (extract_libraries contents) X
  = match last_deps_str X (set_target_properties_pattern_matches contents) with
    | Some deps_str => Some (parse_deps deps_str)
    | None =>
        if existsb (String.eqb X) (add_library_matches contents)
        then Some [] else None
    end.
Proof. rewrite extract_libraries_loops, assign_get, declare_get. reflexivity. Qed.

Lemma extract_libraries_NoDup contents :
  NoDup (dict_keys (extract_libraries contents)).
Proof.
  rewrite extract_libraries_loops. apply assign_NoDup, declare_NoDup. constructor.
Qed.

Lemma existsb_eqb_In X names : existsb (String.eqb X) names = true <-> In X names.
Proof.
  rewrite existsb_exists. split.
  - intros (y & Hy & E). apply String.eqb_eq in E. now subst.
  - intros H. exists X. split; [exact H | apply String.eqb_refl].
Qed.

Lemma last_deps_str_none X ms :
  last_deps_str X ms = None <-> forall deps_str, ~ In (X, deps_str) ms.
Proof.
  induction ms as [|[n ds] ms IH]; simpl.
  - split; [intros _ d [] | reflexivity].
  - destruct (last_deps_str X ms) as [d|] eqn:E.
    + split; [discriminate|]. intros H. exfalso.
      assert (Hn : Some d <> None) by discriminate.
      apply Hn, IH. intros d' Hd'. apply (H d'). now right.
    + destruct (String.eqb_spec n X) as [->|Hne].
      * split; [discriminate|]. intros H. exfalso. apply (H ds). now left.
      * split; [|reflexivity]. intros _ d' [Heq|Hin].
        -- inversion Heq. contradiction.
        -- now apply (proj1 IH eq_refl d').
Qed.

Lemma last_deps_str_In X ms deps_str :
  last_deps_str X ms = Some deps_str -> In (X, deps_str) ms.
Proof.
  induction ms as [|[n ds] ms IH]; simpl; [discriminate|].
  destruct (last_deps_str X ms) as [d|].
  - intros H. inversion H; subst. right. now apply IH.
  - destruct (String.eqb_spec n X) as [->|]; [|discriminate].
    intros H. inversion H; subst. now left.
Qed.

(** The last match for [X] is the one that no later match for [X]
    follows. *)
Lemma last_deps_str_split X ms pre deps_str post :
  ms = (pre ++ (X, deps_str) :: post)%list ->
  (forall d, ~ In (X, d) post) ->
  last_deps_str X ms = Some deps_str.
Proof.
  intros -> Hpost. induction pre as [|[n ds] pre IH]; simpl.
  - rewrite (proj2 (last_deps_str_none X post) Hpost).
    now rewrite String.eqb_refl.
  - now rewrite IH.
Qed.

(** ** The stored list *)

Lemma split_nonempty sep s : split sep s <> [].
Proof.
  destruct s as [|c s]; simpl; [discriminate|].
  destruct (c =? sep)%char; [discriminate|].
  destruct (split sep s); discriminate.
Qed.

Lemma split_plain sep s :
  all_chars (is_not sep) s = true -> split sep s = [s].
Proof.
  induction s as [|c s IH]; simpl; [reflexivity|].
  intros H. apply andb_true_iff in H as [Hc Hs].
  unfold is_not in Hc. apply negb_true_iff in Hc.
  now rewrite Hc, (IH Hs).
Qed.

Lemma split_append sep s t :
  all_chars (is_not sep) s = true ->
  split sep (s ++ String sep t) = s :: split sep t.
Proof.
  induction s as [|c s IH]; simpl.
  - now rewrite Ascii.eqb_refl.
  - intros H. apply andb_true_iff in H as [Hc Hs].
    unfold is_not in Hc. apply negb_true_iff in Hc.
    now rewrite Hc, (IH Hs).
Qed.

Lemma fromkeys_nonempty keys : forall d,
  (d <> [] \/ keys <> []) ->
  fold_left (fun d key => dict_set d key tt) keys d <> [].
Proof.
  induction keys as [|key keys IH]; intros d H; simpl.
  - destruct H as [H|H]; [exact H | congruence].
  - apply IH. left. destruct d as [|[k' []] d]; simpl; [discriminate|].
    destruct (k' =? key)%string; discriminate.
Qed.

Lemma parse_deps_nonempty deps_str : parse_deps deps_str <> [].
Proof.
  unfold parse_deps, dict_keys, dict_fromkeys.
  pose proof (split_nonempty ";" deps_str) as Hs.
  destruct (split ";" deps_str) as [|w ws] eqn:E; [congruence|].
  intros H. apply map_eq_nil in H. revert H.
  apply fromkeys_nonempty. right. discriminate.
Qed.

(** ** Keys in insertion order *)

Lemma filter_twice {A : Type} (p q : A -> bool) l :
  filter p (filter q l) = filter (fun y => q y && p y) l.
Proof.
  induction l as [|x l IH]; simpl; [reflexivity|].
  destruct (q x); simpl; [destruct (p x)|]; now rewrite IH.
Qed.

(** Assigning to a dictionary moves its keys by [keys_step]. *)
Lemma dict_keys_step {V : Type} (d : dict V) key v :
  dict_keys (dict_set d key v) = keys_step (dict_keys d) key.
Proof.
  rewrite dict_keys_set. unfold keys_step.
  destruct (dict_get d key) as [u|] eqn:E.
  - assert (H : existsb (String.eqb key) (dict_keys d) = true)
      by (apply existsb_eqb_In, dict_get_keys; congruence).
    now rewrite H.
  - destruct (existsb _ _) eqn:Ex; [|reflexivity].
    apply existsb_eqb_In, dict_get_keys in Ex. congruence.
Qed.

Lemma keys_step_fold ks : forall K,
  fold_left keys_step ks K
  = (K ++ filter (absent K) (first_occurrences ks))%list.
Proof.
  induction ks as [|x ks IH]; intros K; cbn [fold_left first_occurrences].
  - simpl. now rewrite app_nil_r.
  - rewrite IH. cbn [filter].
    change (absent K x) with (negb (existsb (String.eqb x) K)).
    unfold keys_step.
    destruct (existsb (String.eqb x) K) eqn:Hx; cbn [negb].
    + f_equal. rewrite filter_twice. apply filter_ext. intros y.
      unfold absent.
      destruct (String.eqb_spec y x) as [->|]; [now rewrite Hx | reflexivity].
    + rewrite <- app_assoc. cbn [app]. do 2 f_equal.
      rewrite filter_twice. apply filter_ext. intros y. unfold absent.
      rewrite existsb_app. cbn [existsb]. rewrite orb_false_r, negb_orb.
      apply andb_comm.
Qed.

Lemma keys_step_first_occurrences ks :
  fold_left keys_step ks [] = first_occurrences ks.
Proof.
  rewrite keys_step_fold. cbn [app]. unfold absent. cbn [existsb negb].
  induction (first_occurrences ks) as [|y l IH]; simpl; now rewrite ?IH.
Qed.

(** [list(dict.fromkeys(keys))] keeps the first occurrence of every
    key, in order. *)
Lemma fromkeys_keys keys : forall d : dict unit,
  dict_keys (fold_left (fun d key => dict_set d key tt) keys d)
  = fold_left keys_step keys (dict_keys d).
Proof.
  induction keys as [|x keys IH]; intros d; cbn [fold_left]; [reflexivity|].
  now rewrite IH, dict_keys_step.
Qed.

Lemma fromkeys_first_occurrences keys :
  dict_keys (dict_fromkeys keys) = first_occurrences keys.
Proof.
  unfold dict_fromkeys. rewrite fromkeys_keys. apply keys_step_first_occurrences.
Qed.

Lemma fromkeys_NoDup keys : forall d : dict unit,
  NoDup (dict_keys d) ->
  NoDup (dict_keys (fold_left (fun d key => dict_set d key tt) keys d)).
Proof.
  induction keys as [|x keys IH]; intros d H; cbn [fold_left]; [exact H|].
  apply IH. now apply dict_keys_set_NoDup.
Qed.

Lemma first_occurrences_NoDup ks : NoDup (first_occurrences ks).
Proof.
  rewrite <- fromkeys_first_occurrences. apply fromkeys_NoDup. constructor.
Qed.

(** The stored list: the pieces of the quoted string, rewritten, then
    each once at its first place. *)
Lemma parse_deps_first_occurrences deps_str :
  parse_deps deps_str
  = first_occurrences (map (sub_group1 link_only_pattern) (split ";" deps_str))
  /\ NoDup (parse_deps deps_str).
Proof.
  unfold parse_deps. rewrite fromkeys_first_occurrences.
  split; [reflexivity | apply first_occurrences_NoDup].
Qed.

(** The keys of the mapping: the identifiers of the [add_library]
    matches and then those of the properties matches, each at its first
    place. *)
Lemma declare_keys names : forall d,
  dict_keys (fold_left declare names d) = fold_left keys_step names (dict_keys d).
Proof.
  induction names as [|n names IH]; intros d; cbn [fold_left]; [reflexivity|].
  unfold declare at 2. now rewrite IH, dict_keys_step.
Qed.

Lemma assign_keys ms : forall d,
  dict_keys (fold_left assign ms d)
  = fold_left keys_step (map fst ms) (dict_keys d).
Proof.
  induction ms as [|[n ds] ms IH]; intros d; cbn [fold_left map]; [reflexivity|].
  rewrite IH. cbn [assign fst]. now rewrite dict_keys_step.
Qed.

Lemma extract_libraries_key_order contents :
  dict_keys (extract_libraries contents)
  = first_occurrences
      (add_library_matches contents
       ++ map fst (set_target_properties_pattern_matches contents))%list.
Proof.
  rewrite extract_libraries_loops, assign_keys, declare_keys.
  rewrite <- fold_left_app. apply keys_step_first_occurrences.
Qed.

(** ** The renderer *)

Lemma system_library_map_table dep :
  dict_get system_library_map dep = system_flag_table dep.
Proof.
  unfold system_library_map, system_flag_table. cbn [dict_get].
  now rewrite !(String.eqb_sym dep).
Qed.

Lemma dep_map_table dep :
  dict_get dep_map dep = external_reference_table dep.
Proof.
  unfold dep_map, external_reference_table. cbn [dict_get].
  now rewrite !(String.eqb_sym dep).
Qed.

Lemma classify_dep_classification acc dep :
  classify_dep acc dep
  = match classification dep with
    | SystemLinkFlag flag =>
        {| link_opts := (link_opts acc ++ [flag])%list;
           external_deps := external_deps acc;
           internal_deps := internal_deps acc |}
    | ExternalReference label =>
        {| link_opts := link_opts acc;
           external_deps := (external_deps acc ++ [label])%list;
           internal_deps := internal_deps acc |}
    | InternalReference identifier =>
        {| link_opts := link_opts acc;
           external_deps := external_deps acc;
           internal_deps := (internal_deps acc ++ [identifier])%list |}
    end.
Proof.
  unfold classify_dep, classification.
  rewrite system_library_map_table, dep_map_table.
  destruct (system_flag_table dep); [reflexivity|].
  now destruct (external_reference_table dep).
Qed.

Lemma classify_fold lib_deps : forall acc,
  fold_left classify_dep lib_deps acc
  = {| link_opts := (link_opts acc ++ link_flags lib_deps)%list;
       external_deps := (external_deps acc ++ external_refs lib_deps)%list;
       internal_deps := (internal_deps acc ++ internal_refs lib_deps)%list |}.
Proof.
  induction lib_deps as [|dep lib_deps IH]; intros [lo ex inn].
  - simpl. now rewrite !app_nil_r.
  - cbn [fold_left]. rewrite IH, classify_dep_classification.
    unfold link_flags, external_refs, internal_refs. cbn [flat_map].
    destruct (classification dep); cbn [link_opts external_deps internal_deps];
      rewrite <- ?app_assoc; reflexivity.
Qed.

Lemma classify_deps_lists lib_deps :
  classify_deps lib_deps
  = {| link_opts := link_flags lib_deps;
       external_deps := external_refs lib_deps;
       internal_deps := internal_refs lib_deps |}.
Proof. unfold classify_deps. now rewrite classify_fold. Qed.

Lemma fold_append (f : string -> string) items : forall acc,
  fold_left (fun bzl_content item => bzl_content ++ f item) items acc
  = acc ++ String.concat EmptyString (map f items).
Proof.
  induction items as [|x items IH]; intros acc.
  - simpl. now rewrite append_nil_r.
  - cbn [fold_left map]. now rewrite IH, concat_cons, append_assoc.
Qed.

Lemma item_lines_app xs ys : item_lines (xs ++ ys) = item_lines xs ++ item_lines ys.
Proof.
  unfold item_lines. induction xs as [|x xs IH]; [reflexivity|].
  cbn [app map]. now rewrite !concat_cons, IH, append_assoc.
Qed.

Lemma item_lines_local xs :
  String.concat EmptyString
    (map (fun dep => "        " ++ quote ++ ":lib_" ++ dep ++ quote ++ "," ++ nl) xs)
  = item_lines (map local_reference xs).
Proof. unfold item_lines. now rewrite map_map. Qed.

Lemma attribute_length name items :
  attribute name items
  = if List.length items =? 0 then EmptyString
    else "    " ++ name ++ " = [" ++ nl ++ item_lines items ++ "    ]," ++ nl.
Proof. now destruct items. Qed.

(** One turn of the outer loop appends one block of the output format:
    the [deps] attribute holds the local references of the internal
    dependencies and then the external labels, the [linkopts] attribute
    the flags. *)
Lemma emit_library_block bzl_content lib_name lib_deps :
  emit_library bzl_content (lib_name, lib_deps)
  = bzl_content ++
    rule_block lib_name
      (map local_reference (internal_refs lib_deps) ++ external_refs lib_deps)%list
      (link_flags lib_deps).
Proof.
  unfold emit_library. rewrite classify_deps_lists.
  cbn [link_opts external_deps internal_deps].
  rewrite !fold_append, item_lines_local.
  fold (item_lines (external_refs lib_deps)) (item_lines (link_flags lib_deps)).
  unfold rule_block, item_line.
  rewrite !attribute_length, length_app, length_map, item_lines_app.
  destruct (List.length (internal_refs lib_deps)),
    (List.length (external_refs lib_deps)),
    (List.length (link_flags lib_deps));
    cbn [Nat.eqb negb orb Nat.add];
    rewrite ?append_assoc; reflexivity.
Qed.

(** ** Keys of the mapping *)

Lemma stp_names_In X ms :
  (exists deps_str, In (X, deps_str) ms) <-> last_deps_str X ms <> None.
Proof.
  split.
  - intros [d Hd] E. now apply (proj1 (last_deps_str_none X ms) E d).
  - intros H. destruct (last_deps_str X ms) as [d|] eqn:E; [|congruence].
    exists d. now apply last_deps_str_In.
Qed.

(** An identifier is a key exactly when a match of one of the two
    patterns names it. *)
Lemma extract_libraries_keys contents X :
  In X (dict_keys (extract_libraries contents)) <->
  In X (add_library_matches contents) \/
  exists deps_str, In (X, deps_str) (set_target_properties_pattern_matches contents).
Proof.
  rewrite <- dict_get_keys, extract_libraries_get, stp_names_In.
  rewrite <- existsb_eqb_In.
  destruct (last_deps_str X _) as [d|].
  - split; [intros _; right; discriminate | intros _; discriminate].
  - destruct (existsb _ _).
    + split; [now left | intros _; discriminate].
    + split; [congruence | intros [H|H]; [discriminate | congruence]].
Qed.

(** ** The output as a sequence of blocks *)

Lemma emit_libraries_blocks libraries : forall bzl_content,
  fold_left emit_library libraries bzl_content
  = bzl_content ++ String.concat EmptyString (map block_of libraries).
Proof.
  induction libraries as [|[n ds] libs IH]; intros bzl.
  - simpl. now rewrite append_nil_r.
  - cbn [fold_left map]. rewrite IH, emit_library_block, concat_cons.
    now rewrite append_assoc.
Qed.

(** ** The patterns on a well-formed export file *)

(** A literal that holds the character [z] cannot be read where a run
    without [z] is closed by a character that the literal does not
    hold. *)
Lemma strip_blocked z l : forall m c X,
  occurrences z m = 0 ->
  0 < occurrences z l ->
  occurrences c l = 0 ->
  strip l (m ++ String c X) = None.
Proof.
  induction l as [|a l IH]; intros m c X Hm Hl Hc;
    cbn [occurrences strip] in *; [lia|].
  destruct m as [|b m]; cbn [append occurrences] in *.
  - destruct (Ascii.eqb_spec a c) as [->|]; [|reflexivity].
    lia.
  - destruct (Ascii.eqb_spec a b) as [->|]; [|reflexivity].
    destruct (b =? z)%char eqn:E; [lia|].
    apply IH; [lia | lia |].
    destruct (b =? c)%char; lia.
Qed.

(** The scan passes over such a run without a match. *)
Lemma findall_blocked z l r m c X :
  occurrences z m = 0 ->
  0 < occurrences z l ->
  occurrences c l = 0 ->
  findall (Lit l ;; r) (m ++ String c X) = findall (Lit l ;; r) (String c X).
Proof.
  intros Hm Hl Hc. induction m as [|b m IH]; [reflexivity|].
  cbn [occurrences] in Hm.
  destruct (b =? z)%char eqn:E; [lia|].
  cbn [append]. rewrite findall_gap; [apply IH; lia|].
  unfold match_at. cbn [rmatch].
  change (String b (m ++ String c X)) with (String b m ++ String c X).
  rewrite (strip_blocked z); auto.
  cbn [occurrences]. rewrite E. lia.
Qed.

Section SegmentFacts.
Context {R : Type}.
Implicit Types (k : string -> list string -> option R).

Lemma rmatch_lit_end l X caps k :
  rmatch (Lit l) (l ++ X) caps k = k X caps.
Proof. simpl. now rewrite strip_append. Qed.

(** A greedy segment reads the whole run when the rest of the pattern
    accepts what follows. *)
Lemma rmatch_star cls r m rest caps k res :
  all_chars cls m = true -> starts_outside cls rest ->
  rmatch r rest caps k = Some res ->
  rmatch (Star cls ;; r) (m ++ rest) caps k = Some res.
Proof.
  intros Hm Hrest Hk. cbn [rmatch]. now apply star_greedy_max.
Qed.

Lemma rmatch_plus cls r m rest caps k res :
  nonempty m = true ->
  all_chars cls m = true -> starts_outside cls rest ->
  rmatch r rest caps k = Some res ->
  rmatch (Plus cls ;; r) (m ++ rest) caps k = Some res.
Proof.
  intros Hne Hm Hrest Hk. destruct m as [|c m]; [discriminate|].
  cbn [all_chars] in Hm. apply andb_true_iff in Hm as [Hc Hm].
  cbn [rmatch append]. rewrite Hc. now apply star_greedy_max.
Qed.

Lemma rmatch_group_plus cls r m rest caps k res :
  nonempty m = true ->
  all_chars cls m = true -> starts_outside cls rest ->
  rmatch r rest (caps ++ [m]) k = Some res ->
  rmatch (Group (Plus cls) ;; r) (m ++ rest) caps k = Some res.
Proof.
  intros Hne Hm Hrest Hk. destruct m as [|c m]; [discriminate|].
  cbn [all_chars] in Hm. apply andb_true_iff in Hm as [Hc Hm].
  cbn [rmatch append]. rewrite Hc.
  apply star_greedy_max; [exact Hm | exact Hrest |].
  change (String c (m ++ rest)) with (String c m ++ rest).
  now rewrite take_consumed.
Qed.

(** A lazy group stops at the first occurrence of the character that
    the pattern asks for next, when the rest of the pattern accepts
    what follows it. *)
Lemma rmatch_group_lazy q cls r m X caps k res :
  all_chars cls m = true -> all_chars (is_not q) m = true ->
  rmatch r X (caps ++ [m]) k = Some res ->
  rmatch (Group (LazyStar cls) ;; Lit (String q EmptyString) ;; r)
         (m ++ String q X) caps k
  = Some res.
Proof.
  intros Hm Hq Hk. cbn [rmatch].
  rewrite star_lazy_run; [| exact Hm |].
  - cbn [star_lazy strip]. rewrite Ascii.eqb_refl, take_consumed, Hk.
    reflexivity.
  - intros m1 c m2 ->. rewrite all_chars_append in Hq.
    apply andb_true_iff in Hq as [_ Hq]. cbn [all_chars] in Hq.
    apply andb_true_iff in Hq as [Hc _]. unfold is_not in Hc.
    apply negb_true_iff in Hc.
    cbn [append strip]. rewrite Ascii.eqb_sym in Hc. now rewrite Hc.
Qed.
End SegmentFacts.

Lemma all_chars_dot_all s : all_chars dot_all s = true.
Proof. induction s as [|c s IH]; [reflexivity | exact IH]. Qed.

(** On its own declaration the [add_library] pattern reads the name up
    to the space and the arguments up to the parenthesis. *)
Lemma add_library_hit name args X :
  nonempty name = true ->
  all_chars is_word name = true ->
  all_chars (is_not ")") args = true ->
  match_at add_library_pattern ("add_library(" ++ name ++ " " ++ args ++ ")" ++ X)
  = Some ([name], X).
Proof.
  intros Hne Hname Hargs. unfold match_at, add_library_pattern.
  rewrite rmatch_lit.
  apply rmatch_group_plus; [exact Hne | exact Hname | reflexivity |].
  rewrite rmatch_lit.
  apply rmatch_star; [exact Hargs | reflexivity |].
  now rewrite rmatch_lit_end.
Qed.

(** On its own declaration the properties pattern reads the name, the
    white space, and the quoted list up to the first quote. *)
Lemma properties_hit name deps X :
  nonempty name = true ->
  all_chars is_word name = true ->
  all_chars (is_not (chr 34)) deps = true ->
  match_at set_target_properties_pattern
    ("set_target_properties(" ++ name ++ " PROPERTIES" ++ nl ++
     "  INTERFACE_LINK_LIBRARIES " ++ quote ++ deps ++ quote ++ nl ++ ")" ++ X)
  = Some ([name; deps], X).
Proof.
  intros Hne Hname Hdeps. unfold match_at, set_target_properties_pattern.
  rewrite rmatch_lit.
  apply rmatch_group_plus; [exact Hne | exact Hname | reflexivity |].
  rewrite rmatch_lit.
  apply (rmatch_plus space_cr_lf _ (nl ++ "  ")
           ("INTERFACE_LINK_LIBRARIES " ++ quote ++ deps ++ quote ++ nl ++ ")" ++ X));
    [reflexivity | reflexivity | reflexivity |].
  rewrite !rmatch_lit.
  apply (rmatch_group_lazy (chr 34) dot_all _ deps (nl ++ ")" ++ X));
    [apply all_chars_dot_all | exact Hdeps |].
  apply (rmatch_star not_rparen _ nl (")" ++ X)); [reflexivity | reflexivity |].
  now rewrite rmatch_lit_end.
Qed.

(** The scan over one declaration of a file. *)

Ltac pass_literal :=
  repeat (rewrite findall_gap by reflexivity).

Lemma add_library_over_add_library name args X :
  well_formed (AddLibrary name args) = true ->
  findall add_library_pattern (add_library_decl name args ++ X)
  = [name] :: findall add_library_pattern X.
Proof.
  intros Hwf. cbn [well_formed] in Hwf.
  apply andb_true_iff in Hwf as [Hwf Hrp].
  apply andb_true_iff in Hwf as [Hwf Hlp].
  apply andb_true_iff in Hwf as [Hne Hname].
  unfold add_library_decl. rewrite !append_assoc.
  rewrite (findall_hit _ _ [name] (nl ++ X)).
  - unfold nl. cbn [append]. now pass_literal.
  - now apply (add_library_hit name args (nl ++ X)).
  - rewrite !length_append. cbn [String.length]. lia.
Qed.

Lemma add_library_over_properties name deps X :
  well_formed (SetTargetProperties name deps) = true ->
  findall add_library_pattern (properties_decl name deps ++ X)
  = findall add_library_pattern X.
Proof.
  intros Hwf. cbn [well_formed] in Hwf.
  apply andb_true_iff in Hwf as [Hwf Hq].
  apply andb_true_iff in Hwf as [Hwf Hlp].
  apply andb_true_iff in Hwf as [Hne Hname].
  unfold properties_decl, add_library_pattern. rewrite !append_assoc.
  unfold quote, nl. cbn [append]. pass_literal.
  rewrite (findall_blocked "(" _ _ name " ");
    [| now apply word_no_lparen | vm_compute; lia | reflexivity].
  pass_literal.
  rewrite (findall_blocked "(" _ _ deps (chr 34));
    [| now apply all_not_occurrences | vm_compute; lia | reflexivity].
  now pass_literal.
Qed.

Lemma properties_over_properties name deps X :
  well_formed (SetTargetProperties name deps) = true ->
  findall set_target_properties_pattern (properties_decl name deps ++ X)
  = [name; deps] :: findall set_target_properties_pattern X.
Proof.
  intros Hwf. cbn [well_formed] in Hwf.
  apply andb_true_iff in Hwf as [Hwf Hq].
  apply andb_true_iff in Hwf as [Hwf Hlp].
  apply andb_true_iff in Hwf as [Hne Hname].
  unfold properties_decl. rewrite !append_assoc.
  rewrite (findall_hit _ _ [name; deps] (nl ++ X)).
  - unfold nl. cbn [append]. now pass_literal.
  - now apply (properties_hit name deps (nl ++ X)).
  - rewrite !length_append. cbn [String.length]. lia.
Qed.

Lemma properties_over_add_library name args X :
  well_formed (AddLibrary name args) = true ->
  findall set_target_properties_pattern (add_library_decl name args ++ X)
  = findall set_target_properties_pattern X.
Proof.
  intros Hwf. cbn [well_formed] in Hwf.
  apply andb_true_iff in Hwf as [Hwf Hrp].
  apply andb_true_iff in Hwf as [Hwf Hlp].
  apply andb_true_iff in Hwf as [Hne Hname].
  unfold add_library_decl, set_target_properties_pattern. rewrite !append_assoc.
  unfold nl. cbn [append]. pass_literal.
  rewrite (findall_blocked "(" _ _ name " ");
    [| now apply word_no_lparen | vm_compute; lia | reflexivity].
  pass_literal.
  rewrite (findall_blocked "(" _ _ args ")");
    [| now apply all_not_occurrences | vm_compute; lia | reflexivity].
  now pass_literal.
Qed.

(** On a file of well-formed declarations each pattern finds its own
    declarations, all of them, in the order of the file, and then goes
    on with the text that follows the file. *)
Lemma file_matches_then ds X :
  forallb well_formed ds = true ->
  add_library_matches (file_text ds ++ X)
  = (declared_names ds ++ add_library_matches X)%list /\
  set_target_properties_pattern_matches (file_text ds ++ X)
  = (declared_properties ds ++ set_target_properties_pattern_matches X)%list.
Proof.
  unfold add_library_matches, set_target_properties_pattern_matches.
  induction ds as [|d ds IH]; intros Hwf.
  - split; reflexivity.
  - cbn [forallb] in Hwf. apply andb_true_iff in Hwf as [Hd Hds].
    destruct (IH Hds) as [IHa IHp]. cbn [file_text fold_right].
    fold (file_text ds). rewrite append_assoc.
    destruct d as [name args|name deps]; cbn [declaration_text].
    + rewrite (add_library_over_add_library _ _ _ Hd).
      rewrite (properties_over_add_library _ _ _ Hd).
      cbn [map declared_names declared_properties flat_map app].
      fold (declared_names ds) (declared_properties ds).
      now rewrite IHa, IHp.
    + rewrite (add_library_over_properties _ _ _ Hd).
      rewrite (properties_over_properties _ _ _ Hd).
      cbn [map declared_names declared_properties flat_map app].
      fold (declared_names ds) (declared_properties ds).
      now rewrite IHa, IHp.
Qed.

Lemma file_matches ds :
  forallb well_formed ds = true ->
  add_library_matches (file_text ds) = declared_names ds /\
  set_target_properties_pattern_matches (file_text ds) = declared_properties ds.
Proof.
  intros Hwf. destruct (file_matches_then ds EmptyString Hwf) as [Ha Hp].
  rewrite append_nil_r in Ha, Hp. rewrite Ha, Hp.
  change (add_library_matches EmptyString) with (@nil string).
  change (set_target_properties_pattern_matches EmptyString)
    with (@nil (string * string)).
  now rewrite !app_nil_r.
Qed.

(** The mapping of a well-formed file, from its declarations. *)
Lemma file_extract ds :
  forallb well_formed ds = true ->
  extract_libraries (file_text ds)
  = fold_left assign (declared_properties ds)
      (fold_left declare (declared_names ds) []).
Proof.
  intros Hwf. destruct (file_matches ds Hwf) as [Ha Hp].
  now rewrite extract_libraries_loops, Ha, Hp.
Qed.

(** The mapping is a function of the two lists of matches. *)
Lemma extract_libraries_same contents contents' :
  add_library_matches contents' = add_library_matches contents ->
  set_target_properties_pattern_matches contents'
  = set_target_properties_pattern_matches contents ->
  extract_libraries contents' = extract_libraries contents /\
  bzl_of_contents contents' = bzl_of_contents contents.
Proof.
  intros Ha Hp.
  assert (E : extract_libraries contents' = extract_libraries contents)
    by now rewrite !extract_libraries_loops, Ha, Hp.
  split; [exact E|]. unfold bzl_of_contents. now rewrite E.
Qed.

(** ** Declarations that no pattern matches *)

(** [add_library(name)] at the head of a text: the scan of either
    pattern passes over it and goes on with the rest. *)
Lemma bare_declaration_passed name rest :
  all_chars is_word name = true ->
  add_library_matches ("add_library(" ++ name ++ ")" ++ rest)
  = add_library_matches rest /\
  set_target_properties_pattern_matches ("add_library(" ++ name ++ ")" ++ rest)
  = set_target_properties_pattern_matches rest.
Proof.
  intros Hname.
  pose proof (add_library_needs_space name rest Hname) as H0.
  unfold add_library_matches, set_target_properties_pattern_matches.
  unfold add_library_pattern, set_target_properties_pattern in *.
  cbn [append] in H0 |- *. split; f_equal.
  - rewrite (findall_gap _ _ _ H0). pass_literal.
    rewrite (findall_blocked "(" _ _ name ")");
      [| now apply word_no_lparen | vm_compute; lia | reflexivity].
    now pass_literal.
  - pass_literal.
    rewrite (findall_blocked "(" _ _ name ")");
      [| now apply word_no_lparen | vm_compute; lia | reflexivity].
    now pass_literal.
Qed.

(** ** The declarations of a file *)

Lemma declared_names_In ds X :
  In X (declared_names ds) <-> exists args, In (AddLibrary X args) ds.
Proof.
  unfold declared_names. rewrite in_flat_map. split.
  - intros ([name args|name deps] & Hd & Hx); [|destruct Hx].
    destruct Hx as [->|[]]. now exists args.
  - intros (args & Hd). exists (AddLibrary X args). split; [exact Hd | now left].
Qed.

Lemma declared_properties_In ds X deps :
  In (X, deps) (declared_properties ds) <-> In (SetTargetProperties X deps) ds.
Proof.
  unfold declared_properties. rewrite in_flat_map. split.
  - intros ([name args|name deps'] & Hd & Hx); [destruct Hx|].
    destruct Hx as [Hx|[]]. now inversion Hx; subst.
  - intros Hd. exists (SetTargetProperties X deps). split; [exact Hd | now left].
Qed.

Lemma declared_properties_app ds ds' :
  declared_properties (ds ++ ds')
  = (declared_properties ds ++ declared_properties ds')%list.
Proof. unfold declared_properties. apply flat_map_app. Qed.

(** * The claims *)

(** ** C1 *)

(** C1, as the code has it.  A [set_target_properties] match whose
    library identifier no [add_library] match declares is not dropped:
    the second loop assigns to the mapping without looking whether the
    key is there, so the identifier becomes a key, after the declared
    ones, and is mapped to the parsed list of the last properties match
    that names it.  The keys of the mapping are the identifiers of the
    [add_library] matches followed by those of the properties matches,
    each at its first place.  In a file of well-formed declarations
    every properties declaration is such a match: the identifier of one
    that no [add_library] of the file declares is a key of the mapping
    of the file, and of the file followed by any text. *)
Theorem undeclared_properties_inserted :
  (forall contents X deps_str,
      In (X, deps_str) (set_target_properties_pattern_matches contents) ->
      ~ In X (add_library_matches contents) ->
      In X (dict_keys (extract_libraries contents)) /\
      (exists last_str,
          last_deps_str X (set_target_properties_pattern_matches contents)
          = Some last_str /\
          dict_get (extract_libraries contents) X = Some (parse_deps last_str)) /\
      dict_keys (extract_libraries contents)
      = first_occurrences
          (add_library_matches contents
           ++ map fst (set_target_properties_pattern_matches contents))%list) /\
  (forall ds X deps rest,
      forallb well_formed ds = true ->
      In (SetTargetProperties X deps) ds ->
      (forall args, ~ In (AddLibrary X args) ds) ->
      ~ In X (add_library_matches (file_text ds)) /\
      In X (dict_keys (extract_libraries (file_text ds))) /\
      In X (dict_keys (extract_libraries (file_text ds ++ rest))) /\
      (exists last_str,
          last_deps_str X (declared_properties ds) = Some last_str /\
          dict_get (extract_libraries (file_text ds)) X
          = Some (parse_deps last_str)) /\
      dict_keys (extract_libraries (file_text ds))
      = first_occurrences
          (declared_names ds ++ map fst (declared_properties ds))%list).
Proof.
  assert (Hmatches : forall contents X deps_str,
             In (X, deps_str) (set_target_properties_pattern_matches contents) ->
             In X (dict_keys (extract_libraries contents)) /\
             (exists last_str,
                 last_deps_str X (set_target_properties_pattern_matches contents)
                 = Some last_str /\
                 dict_get (extract_libraries contents) X
                 = Some (parse_deps last_str)) /\
             dict_keys (extract_libraries contents)
             = first_occurrences
                 (add_library_matches contents
                  ++ map fst (set_target_properties_pattern_matches contents))%list).
  { intros contents X deps_str Hin. split; [|split].
    - apply extract_libraries_keys. right. now exists deps_str.
    - destruct (last_deps_str X (set_target_properties_pattern_matches contents))
        as [d|] eqn:E.
      + exists d. split; [reflexivity|].
        now rewrite extract_libraries_get, E.
      + exfalso. now apply (proj1 (last_deps_str_none _ _) E deps_str).
    - apply extract_libraries_key_order. }
  split; [intros contents X deps_str Hin _; now apply (Hmatches _ _ deps_str)|].
  intros ds X deps rest Hwf Hin Hno.
  destruct (file_matches ds Hwf) as [Ha Hp].
  destruct (file_matches_then ds rest Hwf) as [_ Hp'].
  assert (Hd : In (X, deps) (declared_properties ds))
    by now apply declared_properties_In.
  assert (Hm : In (X, deps) (set_target_properties_pattern_matches (file_text ds)))
    by now rewrite Hp.
  destruct (Hmatches _ _ _ Hm) as (Hkey & Hlast & Hkeys).
  rewrite Ha, Hp in Hkeys. rewrite Hp in Hlast.
  split; [|split; [exact Hkey | split; [| split; [exact Hlast | exact Hkeys]]]].
  - rewrite Ha. intros Hx. apply declared_names_In in Hx as (args & Hx).
    now apply (Hno args).
  - apply extract_libraries_keys. right. exists deps.
    rewrite Hp'. apply in_or_app. now left.
Qed.

Lemma undeclared_properties_inserted_witness :
  In ("Foo", "Bar") (set_target_properties_pattern_matches undeclared_input) /\
  ~ In "Foo" (add_library_matches undeclared_input) /\
  In "Foo" (dict_keys (extract_libraries undeclared_input)) /\
  forallb well_formed
    [AddLibrary "Bar" "STATIC IMPORTED"; SetTargetProperties "Foo" "Bar"] = true /\
  In (SetTargetProperties "Foo" "Bar")
     [AddLibrary "Bar" "STATIC IMPORTED"; SetTargetProperties "Foo" "Bar"] /\
  (forall args,
      ~ In (AddLibrary "Foo" args)
           [AddLibrary "Bar" "STATIC IMPORTED"; SetTargetProperties "Foo" "Bar"]) /\
  In "Foo"
     (dict_keys
        (extract_libraries
           (file_text [AddLibrary "Bar" "STATIC IMPORTED";
                       SetTargetProperties "Foo" "Bar"]))).
Proof.
  assert (H1 : In ("Foo", "Bar")
                  (set_target_properties_pattern_matches undeclared_input))
    by (vm_compute; left; reflexivity).
  assert (H2 : ~ In "Foo" (add_library_matches undeclared_input))
    by (vm_compute; intros []).
  assert (H3 : In (SetTargetProperties "Foo" "Bar")
                  [AddLibrary "Bar" "STATIC IMPORTED";
                   SetTargetProperties "Foo" "Bar"])
    by (right; left; reflexivity).
  assert (H4 : forall args,
             ~ In (AddLibrary "Foo" args)
                  [AddLibrary "Bar" "STATIC IMPORTED";
                   SetTargetProperties "Foo" "Bar"]).
  { intros args [H|[H|[]]]; discriminate H. }
  split; [exact H1 | split; [exact H2 | split]].
  - exact (proj1 (proj1 undeclared_properties_inserted
                    undeclared_input "Foo" "Bar" H1 H2)).
  - split; [reflexivity | split; [exact H3 | split; [exact H4 |]]].
    exact (proj1 (proj2 (proj2 undeclared_properties_inserted
                           [AddLibrary "Bar" "STATIC IMPORTED";
                            SetTargetProperties "Foo" "Bar"]
                           "Foo" "Bar" EmptyString eq_refl H3 H4))).
Defined.

(** C1 fails on a text that holds the properties of [Foo] and no
    [add_library]: [Foo] was never declared, and it is a key of the
    result. *)
Lemma undeclared_properties_dropped_fails :
  add_library_matches undeclared_input = [] /\
  set_target_properties_pattern_matches undeclared_input = [("Foo", "Bar")] /\
  extract_libraries undeclared_input = [("Foo", ["Bar"])] /\
  In "Foo" (dict_keys (extract_libraries undeclared_input)).
Proof. vm_compute. repeat split; auto. Qed.

(** ** C2 *)

Lemma rule_block_end lib_name deps linkopts :
  exists body, rule_block lib_name deps linkopts = body ++ ")" ++ nl ++ nl.
Proof.
  unfold rule_block. eexists.
  rewrite <- !append_assoc. reflexivity.
Qed.

(** C2.  On the round-trip input the output is the expected block,
    character for character; and on every input the output is the
    sequence of the blocks of the mapping, each of which, the last one
    too, ends with the closing parenthesis, a line feed and one more
    line feed. *)
Theorem round_trip_scenario :
  bzl_of_contents round_trip_input = round_trip_output /\
  (forall filename,
      cmake_parser (fun _ => Some round_trip_input) filename
      = Some round_trip_output) /\
  (forall contents,
      bzl_of_contents contents
      = String.concat EmptyString (map block_of (extract_libraries contents))) /\
  (forall lib, exists body, block_of lib = body ++ ")" ++ nl ++ nl).
Proof.
  split; [vm_compute; reflexivity|].
  split; [intros filename; vm_compute; reflexivity|].
  split.
  - intros contents. unfold bzl_of_contents.
    now rewrite emit_libraries_blocks.
  - intros lib. apply rule_block_end.
Qed.

(** ** C3 *)

(** C3, as the code has it.  When the text holds an [add_library]
    match for [X] and a properties match for [X] with the quoted string
    ["A;B;A;C"] that no later properties match for [X] follows, the list
    stored for [X] is [["A"; "B"; "C"]]: duplicates gone, first
    occurrences in order (for any quoted string, see
    [parse_deps_first_occurrences]), and [X] is a key once.  In a file
    of well-formed declarations the matches are the declarations: when
    the file declares [X] with [add_library] and holds the properties
    of [X] with ["A;B;A;C"], and no properties of [X] after them, the
    list stored for [X] is [["A"; "B"; "C"]]. *)
Theorem deduplicated_list_stored :
  (forall contents X pre post,
      In X (add_library_matches contents) ->
      set_target_properties_pattern_matches contents
      = (pre ++ (X, "A;B;A;C") :: post)%list ->
      (forall deps_str, ~ In (X, deps_str) post) ->
      dict_get (extract_libraries contents) X = Some ["A"; "B"; "C"] /\
      count_occ string_dec (dict_keys (extract_libraries contents)) X = 1) /\
  (forall before after X args,
      forallb well_formed
        (before ++ SetTargetProperties X "A;B;A;C" :: after) = true ->
      In (AddLibrary X args)
         (before ++ SetTargetProperties X "A;B;A;C" :: after) ->
      (forall deps, ~ In (SetTargetProperties X deps) after) ->
      dict_get
        (extract_libraries
           (file_text (before ++ SetTargetProperties X "A;B;A;C" :: after))) X
      = Some ["A"; "B"; "C"] /\
      count_occ string_dec
        (dict_keys
           (extract_libraries
              (file_text (before ++ SetTargetProperties X "A;B;A;C" :: after))))
        X = 1).
Proof.
  assert (Hmatches : forall contents X pre post,
             In X (add_library_matches contents) ->
             set_target_properties_pattern_matches contents
             = (pre ++ (X, "A;B;A;C") :: post)%list ->
             (forall deps_str, ~ In (X, deps_str) post) ->
             dict_get (extract_libraries contents) X = Some ["A"; "B"; "C"] /\
             count_occ string_dec (dict_keys (extract_libraries contents)) X = 1).
  { intros contents X pre post Hadd Hms Hpost. split.
    - rewrite extract_libraries_get.
      now rewrite (last_deps_str_split _ _ _ _ _ Hms Hpost).
    - apply NoDup_count_occ'; [apply extract_libraries_NoDup|].
      apply extract_libraries_keys. now left. }
  split; [exact Hmatches|].
  intros before after X args Hwf Hin Hno.
  destruct (file_matches _ Hwf) as [Ha Hp].
  apply (Hmatches _ X (declared_properties before) (declared_properties after)).
  - rewrite Ha. apply declared_names_In. now exists args.
  - rewrite Hp. now rewrite declared_properties_app.
  - intros deps_str Hd. apply declared_properties_In in Hd. now apply (Hno deps_str).
Qed.

Lemma deduplicated_list_stored_witness :
  In "X" (add_library_matches
            (add_library_decl "X" "STATIC IMPORTED" ++
             properties_decl "X" "A;B;A;C")) /\
  set_target_properties_pattern_matches
    (add_library_decl "X" "STATIC IMPORTED" ++ properties_decl "X" "A;B;A;C")
  = ([] ++ ("X", "A;B;A;C") :: [])%list /\
  (forall deps_str : string, ~ In ("X", deps_str) []) /\
  dict_get
    (extract_libraries
       (add_library_decl "X" "STATIC IMPORTED" ++ properties_decl "X" "A;B;A;C"))
    "X"
  = Some ["A"; "B"; "C"] /\
  forallb well_formed
    ([SetTargetProperties "X" "D"]
     ++ SetTargetProperties "X" "A;B;A;C" :: [AddLibrary "X" "STATIC IMPORTED"])
  = true /\
  In (AddLibrary "X" "STATIC IMPORTED")
     ([SetTargetProperties "X" "D"]
      ++ SetTargetProperties "X" "A;B;A;C" :: [AddLibrary "X" "STATIC IMPORTED"]) /\
  (forall deps,
      ~ In (SetTargetProperties "X" deps) [AddLibrary "X" "STATIC IMPORTED"]) /\
  dict_get
    (extract_libraries
       (file_text
          ([SetTargetProperties "X" "D"]
           ++ SetTargetProperties "X" "A;B;A;C"
              :: [AddLibrary "X" "STATIC IMPORTED"])))
    "X"
  = Some ["A"; "B"; "C"].
Proof.
  assert (H0 : In "X" (add_library_matches
                         (add_library_decl "X" "STATIC IMPORTED" ++
                          properties_decl "X" "A;B;A;C")))
    by (vm_compute; left; reflexivity).
  assert (H1 : set_target_properties_pattern_matches
                 (add_library_decl "X" "STATIC IMPORTED" ++
                  properties_decl "X" "A;B;A;C")
               = ([] ++ ("X", "A;B;A;C") :: [])%list)
    by (vm_compute; reflexivity).
  assert (H2 : forall deps_str : string, ~ In ("X", deps_str) [])
    by (intros deps_str H; exact H).
  assert (H3 : In (AddLibrary "X" "STATIC IMPORTED")
                  ([SetTargetProperties "X" "D"]
                   ++ SetTargetProperties "X" "A;B;A;C"
                      :: [AddLibrary "X" "STATIC IMPORTED"]))
    by (right; right; left; reflexivity).
  assert (H4 : forall deps,
             ~ In (SetTargetProperties "X" deps)
                  [AddLibrary "X" "STATIC IMPORTED"]).
  { intros deps [H|[]]. discriminate H. }
  split; [exact H0 | split; [exact H1 | split; [exact H2 | split]]].
  - exact (proj1 (proj1 deduplicated_list_stored _ "X" [] [] H0 H1 H2)).
  - split; [reflexivity | split; [exact H3 | split; [exact H4 |]]].
    exact (proj1 (proj2 deduplicated_list_stored
                    [SetTargetProperties "X" "D"]
                    [AddLibrary "X" "STATIC IMPORTED"]
                    "X" "STATIC IMPORTED" eq_refl H3 H4)).
Defined.

(** C3 fails on a text that holds [add_library(X ...)], the properties
    of [X] with ["A;B;A;C"], and then properties of [X] again with
    ["D"]: the list stored for [X] is [["D"]]. *)
Lemma deduplicated_list_overwritten :
  In "X" (add_library_matches redeclared_input) /\
  In ("X", "A;B;A;C") (set_target_properties_pattern_matches redeclared_input) /\
  dict_get (extract_libraries redeclared_input) "X" = Some ["D"] /\
  dict_get (extract_libraries redeclared_input) "X" <> Some ["A"; "B"; "C"].
Proof.
  vm_compute. repeat split; auto. discriminate.
Qed.

(** ** C4 *)

Lemma fromkeys_twice (w : string) :
  dict_keys (dict_fromkeys [w; w]) = [w].
Proof.
  unfold dict_fromkeys, dict_keys. simpl. now rewrite String.eqb_refl.
Qed.

Lemma link_only_no_semicolon inner :
  all_chars (is_not ";") inner = true ->
  all_chars (is_not ";") (link_only inner) = true.
Proof.
  intros H. unfold link_only.
  rewrite !all_chars_append, H. reflexivity.
Qed.

(** C4, as the code has it.  A token [\$<LINK_ONLY:inner>] whose inner
    part holds neither [>] nor a line feed is rewritten to [inner]; and
    the rewriting comes before the removal of duplicates, so a quoted
    string that lists both [inner] and [\$<LINK_ONLY:inner>], in either
    order, yields the one token [inner] -- as does the string
    [clangAST;\$<LINK_ONLY:clangAST>]. *)
Theorem link_only_normalized inner :
  all_chars dot inner = true ->
  all_chars (is_not ">") inner = true ->
  sub_group1 link_only_pattern (link_only inner) = inner /\
  (all_chars (is_not ";") inner = true ->
   parse_deps (inner ++ ";" ++ link_only inner) = [inner] /\
   parse_deps (link_only inner ++ ";" ++ inner) = [inner]) /\
  parse_deps "clangAST;\$<LINK_ONLY:clangAST>" = ["clangAST"].
Proof.
  intros Hdot Hgt.
  pose proof (link_only_rewritten inner Hdot Hgt) as Hsub.
  pose proof (link_only_untouched inner Hgt) as Hsame.
  fold (link_only inner) in Hsub.
  split; [exact Hsub|]. split; [|vm_compute; reflexivity].
  intros Hsc. pose proof (link_only_no_semicolon inner Hsc) as Hsc'.
  unfold parse_deps. split.
  - change (inner ++ ";" ++ link_only inner)
      with (inner ++ String ";" (link_only inner)).
    rewrite (split_append _ _ _ Hsc), (split_plain _ _ Hsc').
    cbn [map]. rewrite Hsub, Hsame. apply fromkeys_twice.
  - change (link_only inner ++ ";" ++ inner)
      with (link_only inner ++ String ";" inner).
    rewrite (split_append _ _ _ Hsc'), (split_plain _ _ Hsc).
    cbn [map]. rewrite Hsub, Hsame. apply fromkeys_twice.
Qed.

Lemma link_only_normalized_witness :
  all_chars dot "clangAST" = true /\
  all_chars (is_not ">") "clangAST" = true /\
  all_chars (is_not ";") "clangAST" = true /\
  sub_group1 link_only_pattern (link_only "clangAST") = "clangAST" /\
  parse_deps ("clangAST" ++ ";" ++ link_only "clangAST") = ["clangAST"].
Proof.
  destruct (link_only_normalized "clangAST" eq_refl eq_refl) as (H1 & H2 & _).
  split; [reflexivity | split; [reflexivity | split; [reflexivity |]]].
  split; [exact H1 | exact (proj1 (H2 eq_refl))].
Defined.

(** C4 fails on a token whose inner part holds a line feed, which the
    dot of the pattern does not match: the token is left as it is.  It
    fails too on an inner part that holds [>]: the lazy group stops at
    the first one. *)
Lemma link_only_not_normalized :
  sub_group1 link_only_pattern (link_only ("a" ++ nl ++ "b"))
  = link_only ("a" ++ nl ++ "b") /\
  sub_group1 link_only_pattern (link_only ("a" ++ nl ++ "b")) <> "a" ++ nl ++ "b" /\
  sub_group1 link_only_pattern (link_only "a>b") = "ab>" /\
  sub_group1 link_only_pattern (link_only "a>b") <> "a>b" /\
  extract_libraries (properties_decl "X" (link_only ("a" ++ nl ++ "b")))
  = [("X", [link_only ("a" ++ nl ++ "b")])] /\
  extract_libraries (properties_decl "X" (link_only "a>b")) = [("X", ["ab>"])].
Proof.
  vm_compute. repeat split; discriminate.
Qed.

(** ** C5 *)

(** C5.  The inner loop files every dependency token under the
    classification of the specification: the flag of the system table
    when the token is there, else the label of the external table, else
    the token itself; and the two tables of the source are the tables of
    the specification.  On [["LLVMMC"; "m"; "zstd::libzstd_static"]] the
    block has both attributes: [deps] with [:lib_LLVMMC] and then
    [@zstd], [linkopts] with [-lm]. *)
Theorem classification_priority :
  (forall acc dep,
      classify_dep acc dep
      = match classification dep with
        | SystemLinkFlag flag =>
            {| link_opts := (link_opts acc ++ [flag])%list;
               external_deps := external_deps acc;
               internal_deps := internal_deps acc |}
        | ExternalReference label =>
            {| link_opts := link_opts acc;
               external_deps := (external_deps acc ++ [label])%list;
               internal_deps := internal_deps acc |}
        | InternalReference identifier =>
            {| link_opts := link_opts acc;
               external_deps := external_deps acc;
               internal_deps := (internal_deps acc ++ [dep])%list |}
        end) /\
  (forall dep,
      dict_get system_library_map dep = system_flag_table dep /\
      dict_get dep_map dep = external_reference_table dep) /\
  (forall bzl_content lib_name,
      emit_library bzl_content
        (lib_name, ["LLVMMC"; "m"; "zstd::libzstd_static"])
      = bzl_content ++
        "cc_library(" ++ nl ++
        "    name = " ++ quote ++ "lib_" ++ lib_name ++ quote ++ "," ++ nl ++
        "    srcs = [" ++ nl ++
        "        " ++ quote ++ "lib/lib" ++ lib_name ++ ".a" ++ quote ++ "," ++ nl ++
        "    ]," ++ nl ++
        "    deps = [" ++ nl ++
        "        " ++ quote ++ ":lib_LLVMMC" ++ quote ++ "," ++ nl ++
        "        " ++ quote ++ "@zstd" ++ quote ++ "," ++ nl ++
        "    ]," ++ nl ++
        "    linkopts = [" ++ nl ++
        "        " ++ quote ++ "-lm" ++ quote ++ "," ++ nl ++
        "    ]," ++ nl ++
        ")" ++ nl ++ nl).
Proof.
  split; [|split].
  - intros acc dep. rewrite classify_dep_classification.
    unfold classification.
    destruct (system_flag_table dep); [reflexivity|].
    now destruct (external_reference_table dep).
  - intros dep. split; [apply system_library_map_table | apply dep_map_table].
  - intros bzl_content lib_name. rewrite emit_library_block.
    unfold rule_block, item_line. rewrite !append_assoc. reflexivity.
Qed.

(** ** C6 *)

(** C6.  For every library record the block appended is the block of
    the output format whose [deps] attribute lists the local references
    of the internal dependencies, in the order of the dependency list,
    and then the external labels, in that order too, and whose
    [linkopts] attribute lists the flags in that order; an attribute
    with nothing to list is the empty text. *)
Theorem attributes_of_block bzl_content lib_name lib_deps :
  emit_library bzl_content (lib_name, lib_deps)
  = bzl_content ++
    rule_block lib_name
      (map local_reference (internal_refs lib_deps) ++ external_refs lib_deps)%list
      (link_flags lib_deps)
  /\ attribute "deps" [] = EmptyString
  /\ attribute "linkopts" [] = EmptyString
  /\ ((map local_reference (internal_refs lib_deps)
       ++ external_refs lib_deps)%list = []
      <-> internal_refs lib_deps = [] /\ external_refs lib_deps = []).
Proof.
  split; [apply emit_library_block|].
  split; [reflexivity|]. split; [reflexivity|].
  split.
  - intros H. apply app_eq_nil in H as [H1 H2].
    apply map_eq_nil in H1. now split.
  - intros [-> ->]. reflexivity.
Qed.

(** ** C7 *)

(** C7.  Every identifier matched by [add_library] is a key of the
    result, once; and when no properties match names it, its list is
    empty.  In a file of well-formed declarations these are the
    identifiers of the [add_library] declarations of the file, and the
    properties matches are its properties declarations. *)
Theorem declared_library_is_key :
  (forall contents X,
      In X (add_library_matches contents) ->
      count_occ string_dec (dict_keys (extract_libraries contents)) X = 1 /\
      ((forall deps_str,
           ~ In (X, deps_str) (set_target_properties_pattern_matches contents)) ->
       dict_get (extract_libraries contents) X = Some [])) /\
  (forall ds X args,
      forallb well_formed ds = true ->
      In (AddLibrary X args) ds ->
      count_occ string_dec (dict_keys (extract_libraries (file_text ds))) X = 1 /\
      ((forall deps, ~ In (SetTargetProperties X deps) ds) ->
       dict_get (extract_libraries (file_text ds)) X = Some [])).
Proof.
  assert (Hmatches : forall contents X,
             In X (add_library_matches contents) ->
             count_occ string_dec (dict_keys (extract_libraries contents)) X = 1 /\
             ((forall deps_str,
                  ~ In (X, deps_str)
                       (set_target_properties_pattern_matches contents)) ->
              dict_get (extract_libraries contents) X = Some [])).
  { intros contents X Hin. split.
    - apply NoDup_count_occ'; [apply extract_libraries_NoDup|].
      apply extract_libraries_keys. now left.
    - intros Hno. rewrite extract_libraries_get.
      rewrite (proj2 (last_deps_str_none _ _) Hno).
      now rewrite (proj2 (existsb_eqb_In _ _) Hin). }
  split; [exact Hmatches|].
  intros ds X args Hwf Hin.
  destruct (file_matches ds Hwf) as [Ha Hp].
  assert (Hname : In X (add_library_matches (file_text ds))).
  { rewrite Ha. unfold declared_names. apply in_flat_map.
    exists (AddLibrary X args). split; [exact Hin | now left]. }
  destruct (Hmatches _ _ Hname) as [Honce Hempty].
  split; [exact Honce|].
  intros Hno. apply Hempty. intros deps_str Hd. rewrite Hp in Hd.
  unfold declared_properties in Hd. apply in_flat_map in Hd as (d & Hd & Hx).
  destruct d as [name args'|name deps]; [destruct Hx|].
  destruct Hx as [Hx|[]]. inversion Hx; subst. now apply (Hno deps_str).
Qed.

Lemma declared_library_is_key_witness :
  In "X" (add_library_matches (add_library_decl "X" "STATIC IMPORTED")) /\
  count_occ string_dec
    (dict_keys (extract_libraries (add_library_decl "X" "STATIC IMPORTED"))) "X"
  = 1 /\
  dict_get (extract_libraries (add_library_decl "X" "STATIC IMPORTED")) "X"
  = Some [] /\
  forallb well_formed
    [AddLibrary "X" "STATIC IMPORTED"; SetTargetProperties "Y" "X;m"] = true /\
  In (AddLibrary "X" "STATIC IMPORTED")
     [AddLibrary "X" "STATIC IMPORTED"; SetTargetProperties "Y" "X;m"] /\
  dict_get
    (extract_libraries
       (file_text [AddLibrary "X" "STATIC IMPORTED"; SetTargetProperties "Y" "X;m"]))
    "X"
  = Some [].
Proof.
  assert (H : In "X" (add_library_matches (add_library_decl "X" "STATIC IMPORTED")))
    by (vm_compute; left; reflexivity).
  destruct (proj1 declared_library_is_key _ "X" H) as [H1 H2].
  split; [exact H | split; [exact H1 | split]].
  - apply H2. vm_compute. intros deps_str [].
  - assert (Hin : In (AddLibrary "X" "STATIC IMPORTED")
                     [AddLibrary "X" "STATIC IMPORTED";
                      SetTargetProperties "Y" "X;m"])
      by (left; reflexivity).
    split; [reflexivity | split; [exact Hin |]].
    apply (proj2 declared_library_is_key
             [AddLibrary "X" "STATIC IMPORTED"; SetTargetProperties "Y" "X;m"]
             "X" "STATIC IMPORTED" eq_refl Hin).
    intros deps [Hd|[Hd|[]]]; discriminate Hd.
Defined.

(** ** C8 *)

Lemma properties_need_two_quotes s :
  occurrences (chr 34) s < 2 ->
  match_at set_target_properties_pattern s = None /\
  set_target_properties_pattern_matches s = [].
Proof.
  intros H. split.
  - apply (match_at_too_few (chr 34)). exact H.
  - unfold set_target_properties_pattern_matches.
    rewrite (findall_too_few (chr 34)); [reflexivity | exact H].
Qed.

(** C8, as the code has it.  A properties declaration whose opening
    quote is followed by no quote at all, up to the end of the text,
    produces no match: the pattern needs the closing quote.  The text
    that starts with that declaration gives no properties match, and
    after a file of well-formed declarations it adds nothing to their
    properties matches.  (When a quote does come later in the text, be
    it the opening quote of another declaration, the lazy group runs up
    to it.) *)
Theorem unterminated_quote_no_match name ws rest :
  all_chars is_word name = true ->
  all_chars space_cr_lf ws = true ->
  occurrences (chr 34) rest = 0 ->
  match_at set_target_properties_pattern
    ("set_target_properties(" ++ name ++ " PROPERTIES" ++ ws ++
     "INTERFACE_LINK_LIBRARIES " ++ quote ++ rest) = None /\
  set_target_properties_pattern_matches
    ("set_target_properties(" ++ name ++ " PROPERTIES" ++ ws ++
     "INTERFACE_LINK_LIBRARIES " ++ quote ++ rest) = [] /\
  (forall ds,
      forallb well_formed ds = true ->
      set_target_properties_pattern_matches
        (file_text ds ++
         "set_target_properties(" ++ name ++ " PROPERTIES" ++ ws ++
         "INTERFACE_LINK_LIBRARIES " ++ quote ++ rest)
      = declared_properties ds).
Proof.
  intros Hname Hws Hrest.
  assert (H : match_at set_target_properties_pattern
                ("set_target_properties(" ++ name ++ " PROPERTIES" ++ ws ++
                 "INTERFACE_LINK_LIBRARIES " ++ quote ++ rest) = None /\
              set_target_properties_pattern_matches
                ("set_target_properties(" ++ name ++ " PROPERTIES" ++ ws ++
                 "INTERFACE_LINK_LIBRARIES " ++ quote ++ rest) = []).
  { apply properties_need_two_quotes.
    rewrite !occurrences_append, (word_no_quote _ Hname),
      (space_no_quote _ Hws), Hrest.
    vm_compute. lia. }
  destruct H as [H1 H2]. split; [exact H1 | split; [exact H2 |]].
  intros ds Hwf.
  rewrite (proj2 (file_matches_then ds _ Hwf)), H2. apply app_nil_r.
Qed.

Lemma unterminated_quote_no_match_witness :
  all_chars is_word "Y" = true /\
  all_chars space_cr_lf (nl ++ "  ") = true /\
  occurrences (chr 34) ("A;B" ++ nl ++ ")" ++ nl) = 0 /\
  set_target_properties_pattern_matches (unterminated_decl "Y" "A;B") = [] /\
  forallb well_formed [SetTargetProperties "X" "C;D"] = true /\
  set_target_properties_pattern_matches
    (file_text [SetTargetProperties "X" "C;D"] ++ unterminated_decl "Y" "A;B")
  = [("X", "C;D")].
Proof.
  destruct (unterminated_quote_no_match "Y" (nl ++ "  ")
              ("A;B" ++ nl ++ ")" ++ nl) eq_refl eq_refl eq_refl)
    as (_ & H2 & H3).
  split; [reflexivity | split; [reflexivity | split; [reflexivity |]]].
  split; [exact H2 | split; [reflexivity |]].
  exact (H3 [SetTargetProperties "X" "C;D"] eq_refl).
Defined.

(** C8 fails on a text where the declaration with the open quote is
    followed by a well-formed one: the pattern matches from the first
    declaration up to the closing parenthesis of the second, and the
    list stored for [Y] holds the text in between. *)
Lemma unterminated_quote_garbled :
  extract_libraries unterminated_input
  = [("Y", ["A";
            "B" ++ nl ++ ")" ++ nl ++
            "set_target_properties(X PROPERTIES" ++ nl ++
            "  INTERFACE_LINK_LIBRARIES "])] /\
  set_target_properties_pattern_matches unterminated_input <> [].
Proof.
  vm_compute. split; [reflexivity | discriminate].
Qed.

(** ** C9 *)

(** C9.  When a properties match names [X], the list stored for [X] is
    the list of the last such match, and it is not empty, whatever the
    [add_library] matches of the text are: a text with the same
    properties matches stores the same list for [X], wherever its
    [add_library] declarations stand and however many there are; and
    when its [add_library] matches are the same too, the whole mapping
    is the same.  So it is for the files of well-formed declarations:
    two files that list the same properties declarations in the same
    order store the same list for every [X] that has properties, and
    when they list the same [add_library] declarations in the same
    order as well -- one is the other with [add_library] declarations
    moved across properties declarations -- their mappings are equal. *)
Theorem properties_override_declarations :
  (forall contents contents' X deps_str,
      last_deps_str X (set_target_properties_pattern_matches contents)
      = Some deps_str ->
      set_target_properties_pattern_matches contents'
      = set_target_properties_pattern_matches contents ->
      dict_get (extract_libraries contents) X = Some (parse_deps deps_str) /\
      parse_deps deps_str <> [] /\
      dict_get (extract_libraries contents') X
      = dict_get (extract_libraries contents) X /\
      (add_library_matches contents' = add_library_matches contents ->
       extract_libraries contents' = extract_libraries contents)) /\
  (forall ds ds',
      forallb well_formed ds = true ->
      forallb well_formed ds' = true ->
      declared_properties ds' = declared_properties ds ->
      (forall X deps_str,
          last_deps_str X (declared_properties ds) = Some deps_str ->
          dict_get (extract_libraries (file_text ds')) X
          = Some (parse_deps deps_str) /\
          dict_get (extract_libraries (file_text ds)) X
          = Some (parse_deps deps_str)) /\
      (declared_names ds' = declared_names ds ->
       extract_libraries (file_text ds') = extract_libraries (file_text ds))).
Proof.
  split.
  - intros contents contents' X deps_str Hlast Hsame.
    rewrite !extract_libraries_get, Hsame, Hlast.
    repeat split.
    + apply parse_deps_nonempty.
    + intros Hadd. now rewrite !extract_libraries_loops, Hsame, Hadd.
  - intros ds ds' Hwf Hwf' Hprops.
    destruct (file_matches ds Hwf) as [Ha Hp].
    destruct (file_matches ds' Hwf') as [Ha' Hp'].
    split.
    + intros X deps_str Hlast.
      rewrite !extract_libraries_get, Hp, Hp', Hprops, Hlast. now split.
    + intros Hnames.
      now rewrite !extract_libraries_loops, Ha, Ha', Hp, Hp', Hprops, Hnames.
Qed.

Lemma properties_override_declarations_witness :
  (last_deps_str "X" (set_target_properties_pattern_matches declared_before)
   = Some "A;B" /\
   set_target_properties_pattern_matches declared_around
   = set_target_properties_pattern_matches declared_before /\
   dict_get (extract_libraries declared_before) "X" = Some (parse_deps "A;B") /\
   dict_get (extract_libraries declared_around) "X"
   = dict_get (extract_libraries declared_before) "X") /\
  (forallb well_formed
     [AddLibrary "X" "STATIC IMPORTED"; SetTargetProperties "X" "A;B"] = true /\
   forallb well_formed
     [SetTargetProperties "X" "A;B"; AddLibrary "X" "STATIC IMPORTED"] = true /\
   extract_libraries
     (file_text [SetTargetProperties "X" "A;B"; AddLibrary "X" "STATIC IMPORTED"])
   = extract_libraries
       (file_text [AddLibrary "X" "STATIC IMPORTED"; SetTargetProperties "X" "A;B"])).
Proof.
  assert (H1 : last_deps_str "X"
                 (set_target_properties_pattern_matches declared_before)
               = Some "A;B") by (vm_compute; reflexivity).
  assert (H2 : set_target_properties_pattern_matches declared_around
               = set_target_properties_pattern_matches declared_before)
    by (vm_compute; reflexivity).
  split.
  - destruct (proj1 properties_override_declarations _ _ "X" "A;B" H1 H2)
      as (H3 & _ & H4 & _).
    now repeat split.
  - split; [reflexivity | split; [reflexivity |]].
    exact (proj2 (proj2 properties_override_declarations
                    [AddLibrary "X" "STATIC IMPORTED"; SetTargetProperties "X" "A;B"]
                    [SetTargetProperties "X" "A;B"; AddLibrary "X" "STATIC IMPORTED"]
                    eq_refl eq_refl eq_refl) eq_refl).
Defined.

(** The three orders of the declarations of [X] give one mapping. *)
Lemma declaration_order_samples :
  extract_libraries declared_before = [("X", ["A"; "B"])] /\
  extract_libraries declared_after = [("X", ["A"; "B"])] /\
  extract_libraries declared_around = [("X", ["A"; "B"])].
Proof. vm_compute. repeat split. Qed.

(** The mapping depends on the text through its two lists of matches
    only; with the same properties matches and the same set of declared
    identifiers, every entry is the same. *)
Lemma declarations_reordered contents contents' :
  set_target_properties_pattern_matches contents'
  = set_target_properties_pattern_matches contents ->
  (forall X, In X (add_library_matches contents')
             <-> In X (add_library_matches contents)) ->
  forall X, dict_get (extract_libraries contents') X
            = dict_get (extract_libraries contents) X.
Proof.
  intros Hms Hnames X. rewrite !extract_libraries_get, Hms.
  destruct (last_deps_str X _); [reflexivity|].
  destruct (existsb (String.eqb X) (add_library_matches contents)) eqn:E.
  - apply existsb_eqb_In in E. apply Hnames in E.
    now rewrite (proj2 (existsb_eqb_In _ _) E).
  - destruct (existsb (String.eqb X) (add_library_matches contents')) eqn:E';
      [|reflexivity].
    apply existsb_eqb_In in E'. apply Hnames in E'.
    apply existsb_eqb_In in E'. congruence.
Qed.

(** ** C10 *)

(** C10, as the code has it.  On [add_library(name)], the identifier
    closed at once by the parenthesis, the pattern has no match,
    whatever follows, and the declaration adds nothing: the text that
    starts with it gives the mapping and the output of the text that
    follows it, after a file of well-formed declarations it changes
    nothing, and alone on its line it gives the empty mapping and the
    empty output.  In any text an identifier is a key exactly when some
    match of the [add_library] pattern or of the properties pattern
    names it, so the library of such a declaration is a key when its
    properties are declared. *)
Theorem add_library_without_arguments name :
  all_chars is_word name = true ->
  (forall rest,
      match_at add_library_pattern ("add_library(" ++ name ++ ")" ++ rest) = None) /\
  (forall rest,
      extract_libraries ("add_library(" ++ name ++ ")" ++ rest)
      = extract_libraries rest /\
      bzl_of_contents ("add_library(" ++ name ++ ")" ++ rest)
      = bzl_of_contents rest) /\
  (forall ds rest,
      forallb well_formed ds = true ->
      extract_libraries (file_text ds ++ "add_library(" ++ name ++ ")" ++ rest)
      = extract_libraries (file_text ds ++ rest)) /\
  (extract_libraries ("add_library(" ++ name ++ ")" ++ nl) = [] /\
   bzl_of_contents ("add_library(" ++ name ++ ")" ++ nl) = EmptyString) /\
  (forall contents X,
      In X (dict_keys (extract_libraries contents)) <->
      In X (add_library_matches contents) \/
      exists deps_str,
        In (X, deps_str) (set_target_properties_pattern_matches contents)).
Proof.
  intros Hname.
  assert (Hpass : forall rest,
             extract_libraries ("add_library(" ++ name ++ ")" ++ rest)
             = extract_libraries rest /\
             bzl_of_contents ("add_library(" ++ name ++ ")" ++ rest)
             = bzl_of_contents rest).
  { intros rest. destruct (bare_declaration_passed name rest Hname) as [Ha Hp].
    now apply extract_libraries_same. }
  split; [|split; [|split; [|split]]].
  - intros rest. now apply add_library_needs_space.
  - exact Hpass.
  - intros ds rest Hwf.
    destruct (bare_declaration_passed name rest Hname) as [Ha Hp].
    destruct (file_matches_then ds ("add_library(" ++ name ++ ")" ++ rest) Hwf)
      as [Ha1 Hp1].
    destruct (file_matches_then ds rest Hwf) as [Ha2 Hp2].
    apply extract_libraries_same; congruence.
  - destruct (Hpass nl) as [-> ->]. split; reflexivity.
  - apply extract_libraries_keys.
Qed.

Lemma add_library_without_arguments_witness :
  all_chars is_word "Foo" = true /\
  match_at add_library_pattern ("add_library(" ++ "Foo" ++ ")" ++ nl) = None /\
  extract_libraries ("add_library(" ++ "Foo" ++ ")" ++ nl) = [] /\
  forallb well_formed [AddLibrary "Bar" "STATIC IMPORTED"] = true /\
  extract_libraries
    (file_text [AddLibrary "Bar" "STATIC IMPORTED"] ++
     "add_library(" ++ "Foo" ++ ")" ++ nl)
  = extract_libraries (file_text [AddLibrary "Bar" "STATIC IMPORTED"] ++ nl).
Proof.
  destruct (add_library_without_arguments "Foo" eq_refl)
    as (H1 & _ & H3 & H4 & _).
  split; [reflexivity | split; [apply H1 | split; [apply H4 |]]].
  split; [reflexivity |].
  exact (H3 [AddLibrary "Bar" "STATIC IMPORTED"] nl eq_refl).
Defined.

(** C10 fails on a text that holds [add_library(Foo)] and then the
    properties of [Foo]: the [add_library] pattern has no match, and
    yet [Foo] is a key of the mapping and has its block in the
    output. *)
Lemma bare_declaration_still_key :
  add_library_matches bare_input = [] /\
  In "Foo" (dict_keys (extract_libraries bare_input)) /\
  extract_libraries bare_input = [("Foo", ["Bar"])] /\
  bzl_of_contents bare_input
  = rule_block "Foo" [":lib_Bar"] [].
Proof. vm_compute. repeat split; auto. Qed.

(** * Further properties *)

(** ** The script *)

Lemma reports_cons fs filename filenames :
  reports fs (filename :: filenames)
  = report_of fs filename ++ reports fs filenames.
Proof. unfold reports. cbn [map]. apply concat_cons. Qed.

Lemma main_loop_readable fs before : forall rest stdout,
  forallb (readable fs) before = true ->
  main_loop fs (before ++ rest) stdout
  = main_loop fs rest (stdout ++ reports fs before).
Proof.
  induction before as [|f before IH]; intros rest stdout Hall.
  - cbn. now rewrite append_nil_r.
  - cbn [forallb] in Hall. apply andb_true_iff in Hall as [Hf Hall].
    cbn [app main_loop]. rewrite reports_cons.
    unfold readable in Hf. unfold cmake_parser, report_of.
    destruct (fs f) as [contents|]; [|discriminate].
    rewrite (IH rest _ Hall). f_equal.
    unfold print, file_report. now rewrite !append_assoc.
Qed.

(** X13.  When every file named can be read, the script prints, for
    each file in the order given, the provenance line, the blocks of
    the file and an empty line, and it finishes. *)
Theorem main_prints_every_file fs filenames :
  forallb (readable fs) filenames = true ->
  main fs filenames = (reports fs filenames, Finished).
Proof.
  intros Hall. unfold main.
  rewrite <- (app_nil_r filenames) at 1.
  now rewrite (main_loop_readable fs filenames [] EmptyString Hall).
Qed.

Lemma main_prints_every_file_witness :
  forallb (readable (fun _ => Some round_trip_input)) ["a.cmake"; "b.cmake"]
  = true /\
  main (fun _ => Some round_trip_input) ["a.cmake"; "b.cmake"]
  = ("# Source: a.cmake" ++ nl ++ round_trip_output ++ nl ++
     "# Source: b.cmake" ++ nl ++ round_trip_output ++ nl, Finished).
Proof.
  split; [reflexivity|].
  rewrite (main_prints_every_file (fun _ => Some round_trip_input)
             ["a.cmake"; "b.cmake"] eq_refl).
  vm_compute. reflexivity.
Defined.

(** X14.  The run stops at the first file that cannot be read: the
    reports of the files before it are printed, then the provenance
    line of the file itself, which is printed before the file is
    opened; nothing is printed for the files after it, whatever they
    are. *)
Theorem main_stops_at_unreadable fs before filename after :
  forallb (readable fs) before = true ->
  fs filename = None ->
  main fs (before ++ filename :: after)
  = (reports fs before ++ "# Source: " ++ filename ++ nl, OpenFailed filename).
Proof.
  intros Hall Hnone. unfold main.
  rewrite (main_loop_readable fs before _ EmptyString Hall).
  cbn [main_loop]. unfold cmake_parser. rewrite Hnone.
  unfold print. cbn [append]. reflexivity.
Qed.

Lemma main_stops_at_unreadable_witness :
  forallb (readable (fun f => if (f =? "a.cmake")%string
                              then Some round_trip_input else None))
          ["a.cmake"] = true /\
  main (fun f => if (f =? "a.cmake")%string then Some round_trip_input else None)
       (["a.cmake"] ++ "missing.cmake" :: ["a.cmake"])
  = ("# Source: a.cmake" ++ nl ++ round_trip_output ++ nl ++
     "# Source: missing.cmake" ++ nl, OpenFailed "missing.cmake").
Proof.
  split; [reflexivity|].
  rewrite (main_stops_at_unreadable
             (fun f => if (f =? "a.cmake")%string
                       then Some round_trip_input else None)
             ["a.cmake"] "missing.cmake" ["a.cmake"] eq_refl eq_refl).
  vm_compute. reflexivity.
Defined.

(** ** The mapping, entry by entry *)

(** A dictionary with distinct keys is its list of keys with their
    values. *)
Lemma dict_as_map {V : Type} (f : string -> V) (d : dict V) :
  NoDup (dict_keys d) ->
  (forall key, In key (dict_keys d) -> dict_get d key = Some (f key)) ->
  d = map (fun key => (key, f key)) (dict_keys d).
Proof.
  induction d as [|[k v] d IH]; intros Hnd Hget; [reflexivity|].
  cbn [dict_keys map fst] in *. inversion Hnd as [|? ? Hk Hd]; subst.
  f_equal.
  - specialize (Hget k (or_introl eq_refl)). cbn [dict_get] in Hget.
    rewrite String.eqb_refl in Hget. now inversion Hget.
  - apply IH; [exact Hd|]. intros key Hin.
    specialize (Hget key (or_intror Hin)). cbn [dict_get] in Hget.
    destruct (String.eqb_spec k key) as [->|]; [contradiction | exact Hget].
Qed.

Lemma extract_libraries_as_map contents :
  extract_libraries contents
  = map (fun X => (X, entry_of contents X))
        (first_occurrences
           (add_library_matches contents
            ++ map fst (set_target_properties_pattern_matches contents))%list).
Proof.
  rewrite <- extract_libraries_key_order.
  apply dict_as_map; [apply extract_libraries_NoDup|].
  intros X Hin. apply dict_get_keys in Hin.
  rewrite extract_libraries_get in Hin |- *. unfold entry_of.
  destruct (last_deps_str X _); [reflexivity|].
  destruct (existsb _ _); [reflexivity | congruence].
Qed.

(** X3.  The mapping lists the identifiers of the [add_library]
    matches and then those of the properties matches, each once, at its
    first place; each is mapped to the parsed list of the last
    properties match that names it, or to the empty list when there is
    none.  Looking up any other identifier finds nothing. *)
Theorem extract_libraries_entries contents :
  extract_libraries contents
  = map (fun X => (X, entry_of contents X))
        (first_occurrences
           (add_library_matches contents
            ++ map fst (set_target_properties_pattern_matches contents))%list) /\
  forall X,
    dict_get (extract_libraries contents) X
    = if absent (add_library_matches contents
                 ++ map fst (set_target_properties_pattern_matches contents))%list X
      then None else Some (entry_of contents X).
Proof.
  split; [apply extract_libraries_as_map|].
  intros X. rewrite extract_libraries_get. unfold absent, entry_of.
  rewrite existsb_app.
  destruct (last_deps_str X (set_target_properties_pattern_matches contents))
    as [deps_str|] eqn:Hlast.
  - apply last_deps_str_In in Hlast.
    assert (Hin : In X (map fst (set_target_properties_pattern_matches contents)))
      by (change X with (fst (X, deps_str)); now apply in_map).
    apply existsb_eqb_In in Hin. rewrite Hin, orb_true_r. reflexivity.
  - assert (Hout : existsb (String.eqb X)
                     (map fst (set_target_properties_pattern_matches contents))
                   = false).
    { destruct (existsb _ (map fst _)) eqn:E; [|reflexivity].
      apply existsb_eqb_In in E. apply in_map_iff in E as ([X' d] & E1 & E2).
      cbn [fst] in E1. subst X'.
      now apply (proj1 (last_deps_str_none _ _) Hlast d) in E2. }
    rewrite Hout, orb_false_r.
    now destruct (existsb (String.eqb X) (add_library_matches contents)).
Qed.

(** ** The stored list *)

Lemma first_occurrences_In ks x : In x (first_occurrences ks) <-> In x ks.
Proof.
  induction ks as [|k ks IH]; cbn [first_occurrences]; [tauto|].
  cbn [In]. rewrite filter_In, IH.
  destruct (String.eqb_spec x k) as [->|Hne]; cbn [negb].
  - split; [intros [H|[H _]]; auto | intros _; now left].
  - split; [intros [H|[H _]]; auto | intros [H|H]; [now left | now right]].
Qed.

(** X4.  The list stored for a quoted string is never empty and has no
    two equal tokens; it holds the pieces of the string between the
    semicolons, each rewritten, and nothing else, each at the place of
    its first occurrence. *)
Theorem parse_deps_deduplicates deps_str :
  parse_deps deps_str <> [] /\
  NoDup (parse_deps deps_str) /\
  (forall token,
      In token (parse_deps deps_str) <->
      In token (map (sub_group1 link_only_pattern) (split ";" deps_str))) /\
  parse_deps deps_str
  = first_occurrences (map (sub_group1 link_only_pattern) (split ";" deps_str)).
Proof.
  destruct (parse_deps_first_occurrences deps_str) as [Hfo Hnd].
  split; [apply parse_deps_nonempty|]. split; [exact Hnd|].
  split; [|exact Hfo].
  intros token. rewrite Hfo. apply first_occurrences_In.
Qed.

(** ** Files of well-formed declarations *)

(** X1.  On a file of well-formed declarations each pattern finds its
    own declarations, all of them and nothing else, in the order of the
    file, whatever text follows the file: the [add_library] matches are
    the names declared, the properties matches the names and quoted
    strings of the properties declarations. *)
Theorem well_formed_file_parsed ds rest :
  forallb well_formed ds = true ->
  add_library_matches (file_text ds) = declared_names ds /\
  set_target_properties_pattern_matches (file_text ds) = declared_properties ds /\
  add_library_matches (file_text ds ++ rest)
  = (declared_names ds ++ add_library_matches rest)%list /\
  set_target_properties_pattern_matches (file_text ds ++ rest)
  = (declared_properties ds ++ set_target_properties_pattern_matches rest)%list.
Proof.
  intros Hwf. destruct (file_matches ds Hwf) as [Ha Hp].
  destruct (file_matches_then ds rest Hwf) as [Ha' Hp'].
  now repeat split.
Qed.

Lemma well_formed_file_parsed_witness :
  forallb well_formed
    [AddLibrary "Foo" "STATIC IMPORTED"; SetTargetProperties "Foo" "Bar;m";
     AddLibrary "Bar" "SHARED IMPORTED"] = true /\
  add_library_matches
    (file_text [AddLibrary "Foo" "STATIC IMPORTED";
                SetTargetProperties "Foo" "Bar;m";
                AddLibrary "Bar" "SHARED IMPORTED"])
  = ["Foo"; "Bar"] /\
  set_target_properties_pattern_matches
    (file_text [AddLibrary "Foo" "STATIC IMPORTED";
                SetTargetProperties "Foo" "Bar;m";
                AddLibrary "Bar" "SHARED IMPORTED"])
  = [("Foo", "Bar;m")].
Proof.
  destruct (well_formed_file_parsed
              [AddLibrary "Foo" "STATIC IMPORTED";
               SetTargetProperties "Foo" "Bar;m";
               AddLibrary "Bar" "SHARED IMPORTED"] EmptyString eq_refl)
    as (H1 & H2 & _).
  split; [reflexivity | split; [exact H1 | exact H2]].
Defined.

(** ** From a mapping to its export and back *)

Lemma split_concat sep tokens :
  tokens <> [] ->
  forallb (all_chars (is_not sep)) tokens = true ->
  split sep (String.concat (String sep EmptyString) tokens) = tokens.
Proof.
  induction tokens as [|t tokens IH]; intros Hne Hall; [congruence|].
  cbn [forallb] in Hall. apply andb_true_iff in Hall as [Ht Hall].
  destruct tokens as [|t' tokens].
  - simpl. now apply split_plain.
  - change (String.concat (String sep EmptyString) (t :: t' :: tokens))
      with (t ++ String sep (String.concat (String sep EmptyString) (t' :: tokens))).
    rewrite (split_append _ _ _ Ht). f_equal. apply IH; [discriminate | exact Hall].
Qed.

Lemma all_chars_concat p sep tokens :
  p sep = true ->
  forallb (all_chars p) tokens = true ->
  all_chars p (String.concat (String sep EmptyString) tokens) = true.
Proof.
  intros Hsep. induction tokens as [|t tokens IH]; intros Hall; [reflexivity|].
  cbn [forallb] in Hall. apply andb_true_iff in Hall as [Ht Hall].
  destruct tokens as [|t' tokens]; [exact Ht|].
  change (String.concat (String sep EmptyString) (t :: t' :: tokens))
    with (t ++ String sep (String.concat (String sep EmptyString) (t' :: tokens))).
  rewrite all_chars_append, Ht. cbn [all_chars]. now rewrite Hsep, (IH Hall).
Qed.

Lemma forallb_weaken {A : Type} (p q : A -> bool) l :
  (forall x, p x = true -> q x = true) ->
  forallb p l = true -> forallb q l = true.
Proof.
  intros Hpq. induction l as [|x l IH]; simpl; [reflexivity|].
  intros H. apply andb_true_iff in H as [Hx Hl]. now rewrite (Hpq _ Hx), IH.
Qed.

Lemma plain_char_parts c :
  plain_char c = true ->
  is_not ";" c = true /\ is_not (chr 34) c = true /\
  is_not "(" c = true /\ is_not ">" c = true.
Proof.
  unfold plain_char. intros H.
  apply andb_true_iff in H as [H H4]. apply andb_true_iff in H as [H H3].
  apply andb_true_iff in H as [H1 H2]. now repeat split.
Qed.

Lemma plain_tokens (q : ascii -> bool) tokens :
  (forall c, plain_char c = true -> q c = true) ->
  forallb (all_chars plain_char) tokens = true ->
  forallb (all_chars q) tokens = true.
Proof.
  intros Hq. apply forallb_weaken. intros t. now apply all_chars_weaken.
Qed.

Lemma filter_absent l x :
  absent l x = true -> filter (fun y => negb (y =? x)%string) l = l.
Proof.
  unfold absent. induction l as [|y l IH]; cbn [existsb filter]; [reflexivity|].
  rewrite negb_orb. intros H. apply andb_true_iff in H as [Hy Hl].
  rewrite String.eqb_sym, Hy. now rewrite (IH Hl).
Qed.

Lemma distinct_first_occurrences l :
  distinct l = true -> first_occurrences l = l.
Proof.
  induction l as [|x l IH]; cbn [distinct first_occurrences]; [reflexivity|].
  intros H. apply andb_true_iff in H as [Hx Hl].
  now rewrite (IH Hl), (filter_absent _ _ Hx).
Qed.

Lemma keys_step_known ks : forall K,
  (forall k, In k ks -> In k K) -> fold_left keys_step ks K = K.
Proof.
  induction ks as [|k ks IH]; intros K Hin; [reflexivity|].
  cbn [fold_left]. unfold keys_step at 2.
  rewrite (proj2 (existsb_eqb_In k K) (Hin k (or_introl eq_refl))).
  apply IH. intros k' Hk'. apply Hin. now right.
Qed.

Lemma first_occurrences_twice l :
  distinct l = true -> first_occurrences (l ++ l) = l.
Proof.
  intros Hd. rewrite <- keys_step_first_occurrences, fold_left_app.
  rewrite keys_step_first_occurrences, (distinct_first_occurrences _ Hd).
  now apply keys_step_known.
Qed.

(** The stored list of the joined tokens is the list of tokens. *)
Lemma parse_deps_concat tokens :
  negb (List.length tokens =? 0) = true ->
  distinct tokens = true ->
  forallb (all_chars plain_char) tokens = true ->
  parse_deps (String.concat ";" tokens) = tokens.
Proof.
  intros Hne Hd Hplain.
  rewrite (proj1 (parse_deps_first_occurrences _)).
  rewrite split_concat.
  - rewrite <- (distinct_first_occurrences _ Hd) at 2. f_equal.
    rewrite <- (map_id tokens) at 2. apply map_ext_in. intros t Ht.
    apply link_only_untouched.
    assert (H := plain_tokens (is_not ">") tokens
                   (fun c Hc => proj2 (proj2 (proj2 (plain_char_parts c Hc)))) Hplain).
    rewrite forallb_forall in H. now apply H.
  - destruct tokens; [discriminate | discriminate].
  - apply (plain_tokens (is_not ";") tokens); [|exact Hplain].
    intros c Hc. apply (plain_char_parts c Hc).
Qed.

Lemma export_declared libraries :
  declared_names (export_file libraries) = map fst libraries /\
  declared_properties (export_file libraries)
  = map (fun lib => (fst lib, String.concat ";" (snd lib))) libraries.
Proof.
  induction libraries as [|lib libs [IHn IHp]]; [split; reflexivity|].
  unfold export_file in *. cbn [flat_map library_declarations app].
  cbn [declared_names declared_properties flat_map app map].
  fold (declared_names (flat_map library_declarations libs)).
  fold (declared_properties (flat_map library_declarations libs)).
  now rewrite IHn, IHp.
Qed.

Lemma export_well_formed libraries :
  forallb exportable libraries = true ->
  forallb well_formed (export_file libraries) = true.
Proof.
  induction libraries as [|[n deps] libs IH]; [reflexivity|].
  cbn [forallb]. intros H. apply andb_true_iff in H as [Hlib Hlibs].
  unfold export_file. cbn [flat_map library_declarations app forallb fst snd].
  fold (export_file libs). rewrite (IH Hlibs).
  unfold exportable in Hlib. cbn [fst snd] in Hlib.
  apply andb_true_iff in Hlib as [Hlib Hplain].
  apply andb_true_iff in Hlib as [Hlib _].
  apply andb_true_iff in Hlib as [Hlib _].
  apply andb_true_iff in Hlib as [Hne Hword].
  cbn [well_formed]. rewrite Hne, Hword.
  rewrite (all_chars_concat (is_not "(") ";" deps eq_refl),
    (all_chars_concat (is_not (chr 34)) ";" deps eq_refl).
  - reflexivity.
  - apply (plain_tokens (is_not (chr 34)) deps); [|exact Hplain].
    intros c Hc. apply (plain_char_parts c Hc).
  - apply (plain_tokens (is_not "(") deps); [|exact Hplain].
    intros c Hc. apply (plain_char_parts c Hc).
Qed.

Lemma last_deps_str_distinct (g : string * list string -> string) libraries :
  distinct (map fst libraries) = true ->
  forall lib, In lib libraries ->
    last_deps_str (fst lib) (map (fun lib => (fst lib, g lib)) libraries)
    = Some (g lib).
Proof.
  induction libraries as [|l libs IH]; intros Hd lib Hin; [destruct Hin|].
  cbn [map distinct] in Hd. apply andb_true_iff in Hd as [Habs Hd].
  cbn [map last_deps_str]. destruct Hin as [->|Hin].
  - assert (Hnone : last_deps_str (fst lib)
                      (map (fun lib => (fst lib, g lib)) libs) = None).
    { apply last_deps_str_none. intros d Hd'. apply in_map_iff in Hd' as (l' & E & Hl').
      inversion E as [[E1 E2]]. unfold absent in Habs.
      apply negb_true_iff in Habs.
      assert (Hex : existsb (String.eqb (fst lib)) (map fst libs) = true).
      { apply existsb_eqb_In. rewrite <- E1. now apply in_map. }
      congruence. }
    now rewrite Hnone, String.eqb_refl.
  - now rewrite (IH Hd lib Hin).
Qed.

(** X2.  The extractor reads back what an export carries.  From a
    mapping whose libraries have distinct names, each a non-empty run
    of word characters, and whose dependency lists are non-empty lists
    of distinct plain tokens, write for each library its [add_library]
    line and its properties, the tokens joined by semicolons: the
    extractor returns the mapping, and the output is its blocks, one
    per library, in order. *)
Theorem export_round_trip libraries :
  forallb exportable libraries = true ->
  distinct (map fst libraries) = true ->
  extract_libraries (file_text (export_file libraries)) = libraries /\
  bzl_of_contents (file_text (export_file libraries))
  = String.concat EmptyString (map block_of libraries).
Proof.
  intros Hexp Hd.
  assert (E : extract_libraries (file_text (export_file libraries)) = libraries).
  { rewrite extract_libraries_as_map.
    destruct (file_matches _ (export_well_formed _ Hexp)) as [Ha Hp].
    destruct (export_declared libraries) as [Hn Hq].
    unfold entry_of. rewrite Ha, Hp, Hn, Hq.
    replace (map fst (map (fun lib : string * list string =>
                             (fst lib, String.concat ";" (snd lib))) libraries))
      with (map fst libraries) by (rewrite map_map; reflexivity).
    rewrite (first_occurrences_twice _ Hd), map_map.
    transitivity (map (fun lib : string * list string => lib) libraries);
      [|apply map_id].
    apply map_ext_in.
    intros [n deps] Hin.
    rewrite (last_deps_str_distinct (fun lib => String.concat ";" (snd lib))
               libraries Hd (n, deps) Hin).
    cbn [fst snd]. f_equal.
    rewrite forallb_forall in Hexp. specialize (Hexp _ Hin).
    unfold exportable in Hexp. cbn [fst snd] in Hexp.
    apply andb_true_iff in Hexp as [Hexp Hplain].
    apply andb_true_iff in Hexp as [Hexp Hdis].
    apply andb_true_iff in Hexp as [_ Hlen].
    now apply parse_deps_concat. }
  split; [exact E|].
  unfold bzl_of_contents. rewrite E. now rewrite emit_libraries_blocks.
Qed.

Lemma export_round_trip_witness :
  forallb exportable
    [("LLVMSupport", ["rt"; "dl"; "m"; "ZLIB::ZLIB"]);
     ("LLVMCore", ["LLVMSupport"; "LLVMRemarks"])] = true /\
  distinct (map fst [("LLVMSupport", ["rt"; "dl"; "m"; "ZLIB::ZLIB"]);
                     ("LLVMCore", ["LLVMSupport"; "LLVMRemarks"])]) = true /\
  extract_libraries
    (file_text (export_file
                  [("LLVMSupport", ["rt"; "dl"; "m"; "ZLIB::ZLIB"]);
                   ("LLVMCore", ["LLVMSupport"; "LLVMRemarks"])]))
  = [("LLVMSupport", ["rt"; "dl"; "m"; "ZLIB::ZLIB"]);
     ("LLVMCore", ["LLVMSupport"; "LLVMRemarks"])].
Proof.
  split; [reflexivity | split; [reflexivity |]].
  exact (proj1 (export_round_trip
                  [("LLVMSupport", ["rt"; "dl"; "m"; "ZLIB::ZLIB"]);
                   ("LLVMCore", ["LLVMSupport"; "LLVMRemarks"])]
                  eq_refl eq_refl)).
Defined.

(** X10.  A text without an opening parenthesis, the empty text among
    them, declares nothing: the mapping is empty and so is the
    output. *)
Theorem no_parenthesis_no_library contents :
  occurrences "(" contents = 0 ->
  extract_libraries contents = [] /\ bzl_of_contents contents = EmptyString.
Proof.
  intros H0.
  assert (E : extract_libraries contents = []).
  { unfold extract_libraries, add_library_matches,
      set_target_properties_pattern_matches.
    rewrite (findall_too_few "(" add_library_pattern contents),
      (findall_too_few "(" set_target_properties_pattern contents);
      [reflexivity | |]; rewrite H0; cbn; lia. }
  split; [exact E|]. unfold bzl_of_contents. now rewrite E.
Qed.

Lemma no_parenthesis_no_library_witness :
  occurrences "(" "# Generated by CMake" = 0 /\
  extract_libraries "# Generated by CMake" = [] /\
  bzl_of_contents "# Generated by CMake" = EmptyString.
Proof.
  split; [reflexivity|].
  exact (no_parenthesis_no_library "# Generated by CMake" eq_refl).
Defined.

(** X11.  What follows the name inside [add_library( )] is not read:
    after any well-formed declarations, two declarations of the same
    name with different arguments give the same mapping and the same
    output, whatever text comes next. *)
Theorem add_library_arguments_ignored before name args args' rest :
  forallb well_formed before = true ->
  well_formed (AddLibrary name args) = true ->
  well_formed (AddLibrary name args') = true ->
  extract_libraries (file_text before ++ add_library_decl name args ++ rest)
  = extract_libraries (file_text before ++ add_library_decl name args' ++ rest) /\
  bzl_of_contents (file_text before ++ add_library_decl name args ++ rest)
  = bzl_of_contents (file_text before ++ add_library_decl name args' ++ rest).
Proof.
  intros Hb Ha Ha'. apply extract_libraries_same.
  - rewrite !(proj1 (file_matches_then before _ Hb)). f_equal.
    unfold add_library_matches.
    now rewrite (add_library_over_add_library _ _ _ Ha),
      (add_library_over_add_library _ _ _ Ha').
  - rewrite !(proj2 (file_matches_then before _ Hb)). f_equal.
    unfold set_target_properties_pattern_matches.
    now rewrite (properties_over_add_library _ _ _ Ha),
      (properties_over_add_library _ _ _ Ha').
Qed.

Lemma add_library_arguments_ignored_witness :
  forallb well_formed [SetTargetProperties "LLVMCore" "LLVMSupport"] = true /\
  well_formed (AddLibrary "LLVMSupport" "STATIC IMPORTED") = true /\
  well_formed (AddLibrary "LLVMSupport" "SHARED IMPORTED") = true /\
  bzl_of_contents
    (file_text [SetTargetProperties "LLVMCore" "LLVMSupport"] ++
     add_library_decl "LLVMSupport" "STATIC IMPORTED" ++ EmptyString)
  = bzl_of_contents
      (file_text [SetTargetProperties "LLVMCore" "LLVMSupport"] ++
       add_library_decl "LLVMSupport" "SHARED IMPORTED" ++ EmptyString).
Proof.
  split; [reflexivity | split; [reflexivity | split; [reflexivity |]]].
  exact (proj2 (add_library_arguments_ignored
                  [SetTargetProperties "LLVMCore" "LLVMSupport"]
                  "LLVMSupport" "STATIC IMPORTED" "SHARED IMPORTED" EmptyString
                  eq_refl eq_refl eq_refl)).
Defined.

Lemma classify_fold_counts lib_deps : forall acc,
  let l := fold_left classify_dep lib_deps acc in
  List.length (link_opts l) + List.length (external_deps l)
  + List.length (internal_deps l)
  = List.length (link_opts acc) + List.length (external_deps acc)
    + List.length (internal_deps acc) + List.length lib_deps /\
  internal_deps l
  = (internal_deps acc
     ++ filter (fun dep => negb (contains system_library_map dep)
                           && negb (contains dep_map dep)) lib_deps)%list.
Proof.
  induction lib_deps as [|dep deps IH]; intros acc.
  - cbn. split; [lia | now rewrite app_nil_r].
  - cbn [fold_left]. cbv zeta in IH |- *.
    destruct (IH (classify_dep acc dep)) as [IHc IHi].
    rewrite IHc, IHi. cbn [filter List.length].
    unfold classify_dep, contains.
    destruct (dict_get system_library_map dep) as [flag|].
    + cbn [link_opts external_deps internal_deps andb negb].
      rewrite length_app. cbn [List.length]. split; [lia | reflexivity].
    + destruct (dict_get dep_map dep) as [label|].
      * cbn [link_opts external_deps internal_deps andb negb].
        rewrite length_app. cbn [List.length]. split; [lia | reflexivity].
      * cbn [link_opts external_deps internal_deps andb negb].
        rewrite length_app, <- app_assoc. cbn [List.length app].
        split; [lia | reflexivity].
Qed.

(** X12.  The inner loop sends every dependency to exactly one of the
    three lists: their lengths add up to the length of the dependency
    list, and the internal list is the dependencies found in neither
    table, in their order. *)
Theorem classify_deps_partition lib_deps :
  List.length (link_opts (classify_deps lib_deps))
  + List.length (external_deps (classify_deps lib_deps))
  + List.length (internal_deps (classify_deps lib_deps))
  = List.length lib_deps /\
  internal_deps (classify_deps lib_deps)
  = filter (fun dep => negb (contains system_library_map dep)
                       && negb (contains dep_map dep)) lib_deps.
Proof.
  unfold classify_deps.
  destruct (classify_fold_counts lib_deps
              {| link_opts := []; external_deps := []; internal_deps := [] |})
    as [Hc Hi].
  cbv zeta in Hc, Hi. cbn [link_opts external_deps internal_deps List.length app] in Hc, Hi.
  split; [exact Hc | exact Hi].
Qed.

(** ** What a group can hold *)

Lemma all_chars_take p n : forall s,
  all_chars p s = true -> all_chars p (take n s) = true.
Proof.
  induction n as [|n IH]; intros [|c s]; simpl; try reflexivity.
  intros H. apply andb_true_iff in H as [Hc Hs]. now rewrite Hc, IH.
Qed.

Lemma forallb_nth {A : Type} (q : A -> bool) l d n :
  forallb q l = true -> q d = true -> q (nth n l d) = true.
Proof.
  revert n. induction l as [|x l IH]; intros [|n] Hl Hd; simpl in *; auto.
  - now apply andb_true_iff in Hl as [Hx _].
  - apply andb_true_iff in Hl as [_ Hl]. now apply IH.
Qed.

Lemma first_occurrence a s :
  0 < occurrences a s ->
  exists m1 m2, s = m1 ++ String a m2 /\ all_chars (is_not a) m1 = true.
Proof.
  induction s as [|c s IH]; simpl; [lia|].
  destruct (Ascii.eqb_spec c a) as [->|Hne]; intros H.
  - now exists EmptyString, s.
  - destruct (IH H) as (m1 & m2 & -> & Hm1).
    exists (String c m1), m2. split; [reflexivity|]. simpl.
    unfold is_not at 1. apply Ascii.eqb_neq in Hne. now rewrite Hne, Hm1.
Qed.

Section CaptureFacts.
Context {R : Type}.

(** The shortest run: a lazy repeat stops at the first point where the
    continuation accepts. *)
Lemma star_lazy_min cls s (k : string -> option R) res :
  star_lazy cls s k = Some res ->
  exists m s', s = m ++ s' /\ all_chars cls m = true /\ k s' = Some res /\
               forall m1 c m2, m = m1 ++ String c m2 ->
                               k (String c m2 ++ s') = None.
Proof.
  induction s as [|c s IH]; simpl; intros H.
  - destruct (k EmptyString) eqn:Hk; [|discriminate].
    inversion H; subst. exists EmptyString, EmptyString.
    repeat split; auto. intros [|? ?] ? ? E; discriminate E.
  - destruct (k (String c s)) eqn:Hk.
    + inversion H; subst. exists EmptyString, (String c s).
      repeat split; auto. intros [|? ?] ? ? E; discriminate E.
    + destruct (cls c) eqn:Hc; [|discriminate].
      destruct (IH H) as (m & s' & -> & Hm & Hk' & Hmin).
      exists (String c m), s'. simpl. rewrite Hc, Hm.
      repeat split; auto.
      intros [|c1 m1] c' m2 E; simpl in E; inversion E; subst.
      * exact Hk.
      * now apply (Hmin m1).
Qed.

(** A match only adds groups, and they are cut out of the text. *)
Lemma rmatch_within (p : ascii -> bool) r :
  forall s caps (k : string -> list string -> option R) res,
    rmatch r s caps k = Some res ->
    all_chars p s = true ->
    exists s' ext,
      k s' (caps ++ ext)%list = Some res /\ all_chars p s' = true /\
      forallb (all_chars p) ext = true.
Proof.
  induction r as [l|cls|cls|cls|r1 IH1|r1 IH1 r2 IH2];
    simpl; intros s caps k res H Hs.
  - destruct (strip l s) as [s'|] eqn:E; [|discriminate].
    apply strip_inv in E. subst s. rewrite all_chars_append in Hs.
    apply andb_true_iff in Hs as [_ Hs].
    exists s', []. now rewrite app_nil_r.
  - apply star_greedy_inv in H as (m & s' & -> & _ & Hk).
    rewrite all_chars_append in Hs. apply andb_true_iff in Hs as [_ Hs].
    exists s', []. now rewrite app_nil_r.
  - destruct s as [|c s]; [discriminate|].
    destruct (cls c); [|discriminate].
    apply star_greedy_inv in H as (m & s' & -> & _ & Hk).
    simpl in Hs. apply andb_true_iff in Hs as [_ Hs].
    rewrite all_chars_append in Hs. apply andb_true_iff in Hs as [_ Hs].
    exists s', []. now rewrite app_nil_r.
  - apply star_lazy_inv in H as (m & s' & -> & _ & Hk).
    rewrite all_chars_append in Hs. apply andb_true_iff in Hs as [_ Hs].
    exists s', []. now rewrite app_nil_r.
  - destruct (IH1 _ _ _ _ H Hs) as (s' & ext & Hk & Hs' & Hext).
    exists s', (ext ++ [take (String.length s - String.length s') s])%list.
    rewrite app_assoc. repeat split; [exact Hk | exact Hs' |].
    rewrite forallb_app, Hext. cbn [forallb].
    now rewrite (all_chars_take p _ s Hs).
  - destruct (IH1 _ _ _ _ H Hs) as (s1 & ext1 & Hk1 & Hs1 & Hext1).
    destruct (IH2 _ _ _ _ Hk1 Hs1) as (s2 & ext2 & Hk2 & Hs2 & Hext2).
    exists s2, (ext1 ++ ext2)%list. rewrite app_assoc.
    repeat split; [exact Hk2 | exact Hs2 |].
    now rewrite forallb_app, Hext1, Hext2.
Qed.

Lemma rmatch_lit_inv l r s caps (k : string -> list string -> option R) res :
  rmatch (Lit l ;; r) s caps k = Some res ->
  exists s', s = l ++ s' /\ rmatch r s' caps k = Some res.
Proof.
  cbn [rmatch]. destruct (strip l s) as [s'|] eqn:E; [|discriminate].
  apply strip_inv in E. intros H. now exists s'.
Qed.

Lemma rmatch_plus_inv cls r s caps (k : string -> list string -> option R) res :
  rmatch (Plus cls ;; r) s caps k = Some res ->
  exists m s', s = m ++ s' /\ nonempty m = true /\ all_chars cls m = true /\
               rmatch r s' caps k = Some res.
Proof.
  cbn [rmatch]. destruct s as [|c s]; [discriminate|].
  destruct (cls c) eqn:Hc; [|discriminate]. intros H.
  apply star_greedy_inv in H as (m & s' & -> & Hm & Hk).
  exists (String c m), s'. simpl. now rewrite Hc, Hm.
Qed.

Lemma rmatch_group_plus_inv cls r s caps
      (k : string -> list string -> option R) res :
  rmatch (Group (Plus cls) ;; r) s caps k = Some res ->
  exists m s', s = m ++ s' /\ nonempty m = true /\ all_chars cls m = true /\
               rmatch r s' (caps ++ [m]) k = Some res.
Proof.
  cbn [rmatch]. destruct s as [|c s]; [discriminate|].
  destruct (cls c) eqn:Hc; [|discriminate]. intros H.
  apply star_greedy_inv in H as (m & s' & -> & Hm & Hk).
  exists (String c m), s'.
  change (String c (m ++ s')) with (String c m ++ s') in Hk.
  rewrite take_consumed in Hk. simpl. now rewrite Hc, Hm.
Qed.

Lemma rmatch_group_lazy_inv cls r s caps
      (k : string -> list string -> option R) res :
  rmatch (Group (LazyStar cls) ;; r) s caps k = Some res ->
  exists m s', s = m ++ s' /\ all_chars cls m = true /\
               rmatch r s' (caps ++ [m]) k = Some res /\
               forall m1 c m2, m = m1 ++ String c m2 ->
                 rmatch r (String c m2 ++ s') (caps ++ [m1]) k = None.
Proof.
  cbn [rmatch]. intros H.
  apply star_lazy_min in H as (m & s' & -> & Hm & Hk & Hmin).
  exists m, s'. rewrite take_consumed in Hk.
  repeat split; [exact Hm | exact Hk |].
  intros m1 c m2 ->. specialize (Hmin m1 c m2 eq_refl).
  rewrite append_assoc in Hmin.
  now rewrite (take_consumed m1 (String c m2 ++ s')) in Hmin.
Qed.
End CaptureFacts.

Lemma match_at_within p r s caps rest :
  match_at r s = Some (caps, rest) ->
  all_chars p s = true ->
  forallb (all_chars p) caps = true /\ all_chars p rest = true.
Proof.
  unfold match_at. intros H Hs.
  destruct (rmatch_within p r _ _ _ _ H Hs) as (s' & ext & Hk & Hs' & Hext).
  inversion Hk; subst. now split.
Qed.

Lemma scan_within p r : forall s skip,
  all_chars p s = true -> forallb (piece_within p) (scan r skip s) = true.
Proof.
  induction s as [|c s IH]; intros skip Hs.
  - destruct skip; [|reflexivity]. cbn [scan].
    destruct (match_at r EmptyString) as [[caps rest]|] eqn:E; [|reflexivity].
    destruct (match_at_within p _ _ _ _ E Hs) as [Hcaps _].
    cbn [forallb piece_within]. now rewrite Hcaps.
  - pose proof Hs as Hs'. simpl in Hs'. apply andb_true_iff in Hs' as [Hc Hs'].
    destruct skip as [|n]; [|cbn [scan]; now apply IH].
    rewrite scan_cons.
    destruct (match_at r (String c s)) as [[caps rest]|] eqn:E.
    + destruct (match_at_within p _ _ _ _ E Hs) as [Hcaps _].
      cbn [forallb piece_within]. rewrite Hcaps.
      destruct (String.length (String c s) - String.length rest);
        cbn [forallb piece_within andb]; [rewrite Hc|]; now apply IH.
    + cbn [forallb piece_within]. rewrite Hc. now apply IH.
Qed.

Lemma findall_within p r s :
  all_chars p s = true ->
  forallb (forallb (all_chars p)) (findall r s) = true.
Proof.
  intros Hs. unfold findall. pose proof (scan_within p r s 0 Hs) as H.
  induction (scan r 0 s) as [|x ps IH]; [reflexivity|].
  cbn [forallb] in H. apply andb_true_iff in H as [Hx Hps].
  cbn [flat_map]. rewrite forallb_app, (IH Hps).
  destruct x as [caps|c]; cbn [forallb piece_within] in *;
    [now rewrite Hx | reflexivity].
Qed.

Lemma sub_group1_within p r s :
  all_chars p s = true -> all_chars p (sub_group1 r s) = true.
Proof.
  intros Hs. unfold sub_group1. pose proof (scan_within p r s 0 Hs) as H.
  induction (scan r 0 s) as [|x ps IH]; [reflexivity|].
  cbn [forallb] in H. apply andb_true_iff in H as [Hx Hps].
  cbn [map]. rewrite concat_cons, all_chars_append, (IH Hps).
  destruct x as [caps|c]; cbn [piece_within] in Hx.
  - unfold group. now rewrite (forallb_nth (all_chars p) caps EmptyString _ Hx eq_refl).
  - simpl. now rewrite Hx.
Qed.

(** Every match found by the scan is a match at some point of the
    text. *)
Lemma scan_In r caps : forall s skip,
  In (Hit caps) (scan r skip s) ->
  exists pre suffix rest,
    s = pre ++ suffix /\ match_at r suffix = Some (caps, rest).
Proof.
  assert (Hshift : forall c s,
             (exists pre suffix rest,
                 s = pre ++ suffix /\ match_at r suffix = Some (caps, rest)) ->
             exists pre suffix rest,
               String c s = pre ++ suffix /\
               match_at r suffix = Some (caps, rest)).
  { intros c s (pre & suffix & rest & -> & Hm).
    now exists (String c pre), suffix, rest. }
  induction s as [|c s IH]; intros skip Hin.
  - destruct skip; [|destruct Hin]. cbn [scan] in Hin.
    destruct (match_at r EmptyString) as [[caps' rest]|] eqn:E; [|destruct Hin].
    destruct Hin as [Hin|[]]. inversion Hin; subst caps'.
    now exists EmptyString, EmptyString, rest.
  - destruct skip as [|n]; [|cbn [scan] in Hin; apply Hshift; now apply (IH n)].
    rewrite scan_cons in Hin.
    destruct (match_at r (String c s)) as [[caps' rest]|] eqn:E.
    + destruct Hin as [Hin|Hin].
      * inversion Hin; subst caps'. now exists EmptyString, (String c s), rest.
      * apply Hshift.
        destruct (String.length (String c s) - String.length rest) as [|n].
        -- destruct Hin as [Hin|Hin]; [discriminate | now apply (IH 0)].
        -- now apply (IH n).
    + destruct Hin as [Hin|Hin]; [discriminate|].
      apply Hshift. now apply (IH 0).
Qed.

Lemma findall_In r s caps :
  In caps (findall r s) ->
  exists pre suffix rest,
    s = pre ++ suffix /\ match_at r suffix = Some (caps, rest).
Proof.
  unfold findall. intros Hin. apply in_flat_map in Hin as (x & Hx & Hin).
  destruct x as [caps'|c]; [|destruct Hin].
  destruct Hin as [->|[]]. now apply (scan_In r caps s 0).
Qed.

(** The group after the opening literal is a non-empty run of its
    class, and it is the first group. *)
Lemma named_capture l cls r s caps rest :
  match_at (Lit l ;; Group (Plus cls) ;; r) s = Some (caps, rest) ->
  exists name s1,
    nonempty name = true /\ all_chars cls name = true /\
    rmatch r s1 [name] (fun s' caps' => Some (caps', s')) = Some (caps, rest) /\
    exists ext, caps = name :: ext.
Proof.
  unfold match_at. intros H.
  apply rmatch_lit_inv in H as (s0 & -> & H).
  apply rmatch_group_plus_inv in H as (name & s1 & -> & Hne & Hname & H).
  exists name, s1. repeat split; [exact Hne | exact Hname | exact H |].
  destruct (rmatch_within dot_all r _ _ _ _ H (all_chars_dot_all s1))
    as (s' & ext & Hk & _ & _).
  inversion Hk; subst. now exists ext.
Qed.

(** The end of the properties pattern, from the closing quote: it
    accepts exactly when a closing parenthesis follows the quote. *)
Lemma closing_accepts t caps :
  0 < occurrences ")" t ->
  rmatch (Lit quote ;; Star not_rparen ;; Lit ")") (quote ++ t) caps
         (fun s' caps' => Some (caps', s')) <> None.
Proof.
  intros Hocc. destruct (first_occurrence ")" t Hocc) as (m & t' & -> & Hm).
  rewrite rmatch_lit.
  rewrite (rmatch_star not_rparen (Lit ")") m (String ")" t') caps _ (caps, t'));
    [discriminate | exact Hm | reflexivity |].
  apply (rmatch_lit_end ")" t').
Qed.

Lemma closing_inv s caps res :
  rmatch (Lit quote ;; Star not_rparen ;; Lit ")") s caps
         (fun s' caps' => Some (caps', s')) = Some res ->
  fst res = caps /\ exists t, s = quote ++ t /\ 0 < occurrences ")" t.
Proof.
  intros H. apply rmatch_lit_inv in H as (t & -> & H).
  pose proof (rmatch_inv ")" _ _ _ _ _ H) as (m & s' & caps' & -> & _ & Hocc & _).
  split.
  - cbn [rmatch] in H. apply star_greedy_inv in H as (m0 & s0 & _ & _ & H).
    destruct (strip ")" s0); [|discriminate]. now inversion H.
  - exists (m ++ s'). split; [reflexivity|].
    rewrite occurrences_append. cbn in Hocc. lia.
Qed.

(** A match of the properties pattern: the name is a non-empty run of
    word characters, and the quoted string ends at the first quote. *)
Lemma properties_capture s caps rest :
  match_at set_target_properties_pattern s = Some (caps, rest) ->
  exists name deps_str,
    caps = [name; deps_str] /\
    nonempty name = true /\ all_chars is_word name = true /\
    occurrences (chr 34) deps_str = 0.
Proof.
  intros H. apply named_capture in H as (name & s1 & Hne & Hname & H & _).
  apply rmatch_lit_inv in H as (s2 & -> & H).
  apply rmatch_plus_inv in H as (ws & s3 & -> & _ & _ & H).
  apply rmatch_lit_inv in H as (s4 & -> & H).
  apply rmatch_lit_inv in H as (s5 & -> & H).
  apply rmatch_group_lazy_inv in H as (deps_str & s6 & -> & _ & H & Hmin).
  apply closing_inv in H as [Hcaps (t & -> & Hocc)].
  cbn [fst] in Hcaps. exists name, deps_str.
  repeat split; [exact Hcaps | exact Hne | exact Hname |].
  destruct (occurrences (chr 34) deps_str) as [|n] eqn:Hq; [reflexivity|].
  exfalso.
  destruct (first_occurrence (chr 34) deps_str) as (m1 & m2 & -> & _); [lia|].
  apply (closing_accepts (m2 ++ quote ++ t) ([name] ++ [m1])%list).
  - rewrite !occurrences_append. lia.
  - exact (Hmin m1 (chr 34) m2 eq_refl).
Qed.

Lemma add_library_capture s caps rest :
  match_at add_library_pattern s = Some (caps, rest) ->
  nonempty (group 1 caps) = true /\ all_chars is_word (group 1 caps) = true.
Proof.
  intros H. apply named_capture in H as (name & s1 & Hne & Hname & _ & ext & ->).
  now split.
Qed.

Lemma occurrences_none a s :
  occurrences a s = 0 -> all_chars (is_not a) s = true.
Proof.
  induction s as [|c s IH]; simpl; [reflexivity|].
  unfold is_not at 1. destruct (c =? a)%char; simpl; [discriminate | exact IH].
Qed.

Lemma split_pieces sep s piece :
  In piece (split sep s) ->
  all_chars (is_not sep) piece = true /\
  forall p, all_chars p s = true -> all_chars p piece = true.
Proof.
  revert piece. induction s as [|c s IH]; simpl; intros piece Hin.
  - destruct Hin as [<-|[]]. now split.
  - destruct (c =? sep)%char eqn:Hc.
    + destruct Hin as [<-|Hin]; [now split|].
      destruct (IH _ Hin) as [H1 H2]. split; [exact H1|].
      intros p Hp. apply andb_true_iff in Hp as [_ Hp]. now apply H2.
    + destruct (split sep s) as [|w ws] eqn:Hsplit;
        [now apply split_nonempty in Hsplit|].
      destruct Hin as [<-|Hin].
      * destruct (IH w (or_introl eq_refl)) as [H1 H2]. split.
        -- simpl. unfold is_not at 1. now rewrite Hc, H1.
        -- intros p Hp. apply andb_true_iff in Hp as [Hpc Hp]. simpl.
           now rewrite Hpc, H2.
      * destruct (IH piece (or_intror Hin)) as [H1 H2]. split; [exact H1|].
        intros p Hp. apply andb_true_iff in Hp as [_ Hp]. now apply H2.
Qed.

(** Where a key comes from: a match of one of the two patterns. *)
Lemma key_origin contents X :
  In X (dict_keys (extract_libraries contents)) ->
  exists pattern caps,
    (pattern = add_library_pattern \/ pattern = set_target_properties_pattern) /\
    In caps (findall pattern contents) /\ X = group 1 caps.
Proof.
  intros Hin. apply extract_libraries_keys in Hin as [Hin|(deps_str & Hin)].
  - unfold add_library_matches in Hin. apply in_map_iff in Hin as (caps & <- & Hin).
    exists add_library_pattern, caps. auto.
  - unfold set_target_properties_pattern_matches in Hin.
    apply in_map_iff in Hin as (caps & E & Hin). inversion E; subst.
    exists set_target_properties_pattern, caps. auto.
Qed.

(** Where a stored token comes from: a piece, between semicolons, of
    the quoted string of a properties match, after the substitution. *)
Lemma token_origin contents X deps token :
  In (X, deps) (extract_libraries contents) ->
  In token deps ->
  exists caps piece,
    In caps (findall set_target_properties_pattern contents) /\
    In piece (split ";" (group 2 caps)) /\
    token = sub_group1 link_only_pattern piece.
Proof.
  intros Hin Htoken. rewrite extract_libraries_as_map in Hin.
  apply in_map_iff in Hin as (X' & E & _). inversion E; subst X' deps.
  unfold entry_of in Htoken.
  destruct (last_deps_str X (set_target_properties_pattern_matches contents))
    as [deps_str|] eqn:Hlast; [|destruct Htoken].
  apply last_deps_str_In in Hlast.
  unfold set_target_properties_pattern_matches in Hlast.
  apply in_map_iff in Hlast as (caps & E' & Hcaps). inversion E'; subst.
  rewrite (proj1 (parse_deps_first_occurrences (group 2 caps))) in Htoken.
  apply (proj1 (first_occurrences_In _ token)) in Htoken.
  apply in_map_iff in Htoken as (piece & <- & Hpiece).
  now exists caps, piece.
Qed.

Lemma key_is_word contents X :
  In X (dict_keys (extract_libraries contents)) ->
  nonempty X = true /\ all_chars is_word X = true.
Proof.
  intros Hin.
  apply key_origin in Hin as (pattern & caps & Hpattern & Hin & ->).
  apply findall_In in Hin as (pre & suffix & rest & _ & Hm).
  destruct Hpattern as [-> | ->].
  - now apply (add_library_capture suffix caps rest).
  - apply properties_capture in Hm as (name & deps_str & -> & Hne & Hword & _).
    now split.
Qed.

Lemma token_is_plain contents X deps token :
  In (X, deps) (extract_libraries contents) ->
  In token deps ->
  all_chars (is_not (chr 34)) token = true /\
  all_chars (is_not ";") token = true.
Proof.
  intros Hin Htoken.
  destruct (token_origin _ _ _ _ Hin Htoken) as (caps & piece & Hcaps & Hpiece & ->).
  apply findall_In in Hcaps as (pre & suffix & rest & _ & Hm).
  apply properties_capture in Hm as (name & deps_str & -> & _ & _ & Hq).
  change (group 2 [name; deps_str]) with deps_str in Hpiece.
  destruct (split_pieces _ _ _ Hpiece) as [Hsemi Hchars].
  split; apply sub_group1_within; [|exact Hsemi].
  apply Hchars. now apply occurrences_none.
Qed.

(** X5.  Every key of the mapping is a non-empty run of word
    characters, whatever the text. *)
Theorem keys_are_words contents :
  forallb (fun X => nonempty X && all_chars is_word X)
          (dict_keys (extract_libraries contents)) = true.
Proof.
  apply forallb_forall. intros X Hin.
  destruct (key_is_word contents X Hin) as [Hne Hword].
  now rewrite Hne, Hword.
Qed.

(** X6.  No stored dependency holds a double quote or a semicolon,
    whatever the text. *)
Theorem tokens_hold_no_separator contents :
  forallb (fun lib =>
             forallb (fun token => all_chars (is_not (chr 34)) token
                                   && all_chars (is_not ";") token)
                     (snd lib))
          (extract_libraries contents) = true.
Proof.
  apply forallb_forall. intros [X deps] Hin. cbn [snd].
  apply forallb_forall. intros token Htoken.
  destruct (token_is_plain contents X deps token Hin Htoken) as [Hq Hsemi].
  now rewrite Hq, Hsemi.
Qed.

(** X7.  The mapping is cut out of the text: a class of characters that
    holds the whole text holds every key and every stored
    dependency. *)
Theorem mapping_within_text (p : ascii -> bool) contents :
  all_chars p contents = true ->
  forallb (fun lib => all_chars p (fst lib) && forallb (all_chars p) (snd lib))
          (extract_libraries contents) = true.
Proof.
  intros Hp.
  assert (Hgroup : forall pattern caps n,
             In caps (findall pattern contents) ->
             all_chars p (group n caps) = true).
  { intros pattern caps n Hin.
    pose proof (findall_within p pattern contents Hp) as H.
    rewrite forallb_forall in H. unfold group.
    now apply forallb_nth; [apply H|]. }
  apply forallb_forall. intros [X deps] Hin. cbn [fst snd].
  apply andb_true_iff. split.
  - assert (HX : In X (dict_keys (extract_libraries contents)))
      by (unfold dict_keys; now apply (in_map fst) in Hin).
    apply key_origin in HX as (pattern & caps & _ & Hcaps & ->).
    now apply (Hgroup pattern).
  - apply forallb_forall. intros token Htoken.
    destruct (token_origin _ _ _ _ Hin Htoken)
      as (caps & piece & Hcaps & Hpiece & ->).
    apply sub_group1_within.
    apply (proj2 (split_pieces _ _ _ Hpiece)).
    now apply (Hgroup set_target_properties_pattern).
Qed.

Lemma mapping_within_text_witness :
  all_chars (fun c => nat_of_ascii c <? 128) round_trip_input = true /\
  forallb (fun lib => all_chars (fun c => nat_of_ascii c <? 128) (fst lib)
                      && forallb (all_chars (fun c => nat_of_ascii c <? 128))
                                 (snd lib))
          (extract_libraries round_trip_input) = true.
Proof.
  split; [reflexivity|].
  exact (mapping_within_text (fun c => nat_of_ascii c <? 128)
                             round_trip_input eq_refl).
Defined.

(** ** The substitution inside a token *)

Lemma link_only_needs_backslash c s :
  is_not "\" c = true -> match_at link_only_pattern (String c s) = None.
Proof.
  unfold is_not. intros Hc. apply negb_true_iff in Hc.
  unfold match_at, link_only_pattern. cbn [rmatch strip].
  rewrite Ascii.eqb_sym in Hc. now rewrite Hc.
Qed.

Lemma sub_group1_link_only_at pre inner post :
  all_chars (is_not "\") pre = true ->
  all_chars dot inner = true ->
  all_chars (is_not ">") inner = true ->
  sub_group1 link_only_pattern (pre ++ link_only inner ++ post)
  = pre ++ inner ++ sub_group1 link_only_pattern post.
Proof.
  intros Hpre Hdot Hgt. induction pre as [|c pre IH].
  - cbn [append]. unfold link_only. rewrite !append_assoc.
    rewrite (sub_group1_hit _ _ [inner] post); [reflexivity | |].
    + now apply link_only_match.
    + rewrite !length_append. cbn [String.length]. lia.
  - cbn [all_chars] in Hpre. apply andb_true_iff in Hpre as [Hc Hpre].
    cbn [append]. rewrite sub_group1_gap by now apply link_only_needs_backslash.
    now rewrite (IH Hpre).
Qed.

(** X8.  The substitution is not anchored: a wrapper
    [\$<LINK_ONLY:inner>] inside a token, after text without a
    backslash, is replaced by [inner] where it stands, and the
    substitution goes on with what follows, which is kept as it is
    when it holds no [>]. *)
Theorem link_only_inside_token pre inner post :
  all_chars (is_not "\") pre = true ->
  all_chars dot inner = true ->
  all_chars (is_not ">") inner = true ->
  sub_group1 link_only_pattern (pre ++ link_only inner ++ post)
  = pre ++ inner ++ sub_group1 link_only_pattern post /\
  (all_chars (is_not ">") post = true ->
   sub_group1 link_only_pattern (pre ++ link_only inner ++ post)
   = pre ++ inner ++ post).
Proof.
  intros Hpre Hdot Hgt.
  pose proof (sub_group1_link_only_at pre inner post Hpre Hdot Hgt) as H.
  split; [exact H|].
  intros Hpost. rewrite H. now rewrite (link_only_untouched post Hpost).
Qed.

Lemma link_only_inside_token_witness :
  all_chars (is_not "\") "-Wl," = true /\
  all_chars dot "LLVMSupport" = true /\
  all_chars (is_not ">") "LLVMSupport" = true /\
  all_chars (is_not ">") ".a" = true /\
  sub_group1 link_only_pattern ("-Wl," ++ link_only "LLVMSupport" ++ ".a")
  = "-Wl,LLVMSupport.a".
Proof.
  repeat (split; [reflexivity|]).
  exact (proj2 (link_only_inside_token "-Wl," "LLVMSupport" ".a"
                                       eq_refl eq_refl eq_refl) eq_refl).
Defined.

(** X9.  The substitution is one pass: of a wrapper inside a wrapper
    the outer opening and the inner closing are removed, and a wrapper
    is left. *)
Theorem link_only_nested_once inner :
  all_chars dot inner = true ->
  all_chars (is_not ">") inner = true ->
  sub_group1 link_only_pattern (link_only (link_only inner)) = link_only inner.
Proof.
  intros Hdot Hgt.
  replace (link_only (link_only inner))
    with (EmptyString ++ link_only ("\$<LINK_ONLY:" ++ inner) ++ ">")
    by (unfold link_only; cbn [append]; now rewrite !append_assoc).
  rewrite sub_group1_link_only_at; [reflexivity | reflexivity | |].
  - now rewrite all_chars_append, Hdot.
  - now rewrite all_chars_append, Hgt.
Qed.

Lemma link_only_nested_once_witness :
  all_chars dot "clangAST" = true /\
  all_chars (is_not ">") "clangAST" = true /\
  sub_group1 link_only_pattern "\$<LINK_ONLY:\$<LINK_ONLY:clangAST>>"
  = "\$<LINK_ONLY:clangAST>".
Proof.
  split; [reflexivity | split; [reflexivity |]].
  exact (link_only_nested_once "clangAST" eq_refl eq_refl).
Defined.

(** ** The layout of a properties declaration *)

Lemma space_char_letter (c : ascii) :
  space_cr_lf c = true -> (c =? "I")%char = false /\ (c =? "s")%char = false.
Proof.
  destruct c as [[] [] [] [] [] [] [] []]; vm_compute; intros H;
    (discriminate H || now repeat split).
Qed.

Lemma properties_text_hit name ws deps more X :
  nonempty name = true ->
  all_chars is_word name = true ->
  nonempty ws = true ->
  all_chars space_cr_lf ws = true ->
  all_chars (is_not (chr 34)) deps = true ->
  all_chars (is_not ")") more = true ->
  match_at set_target_properties_pattern (properties_text name ws deps more ++ X)
  = Some ([name; deps], X).
Proof.
  intros Hne Hname Hws Hspace Hdeps Hmore.
  unfold match_at, set_target_properties_pattern, properties_text.
  rewrite !append_assoc. rewrite rmatch_lit.
  apply rmatch_group_plus; [exact Hne | exact Hname | reflexivity |].
  rewrite rmatch_lit.
  apply rmatch_plus; [exact Hws | exact Hspace | reflexivity |].
  rewrite !rmatch_lit.
  apply (rmatch_group_lazy (chr 34) dot_all _ deps (more ++ ")" ++ X));
    [apply all_chars_dot_all | exact Hdeps |].
  apply (rmatch_star not_rparen _ more (")" ++ X)); [exact Hmore | reflexivity |].
  now rewrite rmatch_lit_end.
Qed.

(** X15.  The properties pattern does not depend on the layout: with any
    non-empty white space before [INTERFACE_LINK_LIBRARIES], and any
    text without a closing parenthesis between the closing quote and
    the parenthesis, the declaration is matched with its name and its
    quoted string, and the scan goes on after the parenthesis. *)
Theorem properties_layout_free name ws deps more X :
  nonempty name = true ->
  all_chars is_word name = true ->
  nonempty ws = true ->
  all_chars space_cr_lf ws = true ->
  all_chars (is_not (chr 34)) deps = true ->
  all_chars (is_not ")") more = true ->
  set_target_properties_pattern_matches (properties_text name ws deps more ++ X)
  = (name, deps) :: set_target_properties_pattern_matches X.
Proof.
  intros Hne Hname Hws Hspace Hdeps Hmore.
  unfold set_target_properties_pattern_matches.
  rewrite (findall_hit _ _ [name; deps] X); [reflexivity | |].
  - now apply properties_text_hit.
  - unfold properties_text. rewrite !length_append. cbn [String.length]. lia.
Qed.

Lemma properties_layout_free_witness :
  nonempty "LLVMSupport" = true /\
  all_chars is_word "LLVMSupport" = true /\
  nonempty (String (chr 13) (String (chr 10) (String (chr 9) EmptyString))) = true /\
  all_chars space_cr_lf
    (String (chr 13) (String (chr 10) (String (chr 9) EmptyString))) = true /\
  all_chars (is_not (chr 34)) "rt;dl" = true /\
  all_chars (is_not ")")
    (nl ++ "  IMPORTED_LOCATION " ++ quote ++ "lib/libLLVMSupport.a" ++ quote ++ nl)
  = true /\
  set_target_properties_pattern_matches
    (properties_text "LLVMSupport"
       (String (chr 13) (String (chr 10) (String (chr 9) EmptyString)))
       "rt;dl"
       (nl ++ "  IMPORTED_LOCATION " ++ quote ++ "lib/libLLVMSupport.a" ++ quote ++ nl)
     ++ nl)
  = [("LLVMSupport", "rt;dl")].
Proof.
  repeat (split; [reflexivity|]).
  exact (properties_layout_free "LLVMSupport"
           (String (chr 13) (String (chr 10) (String (chr 9) EmptyString)))
           "rt;dl"
           (nl ++ "  IMPORTED_LOCATION " ++ quote ++ "lib/libLLVMSupport.a" ++ quote ++ nl)
           nl eq_refl eq_refl eq_refl eq_refl eq_refl eq_refl).
Defined.

Lemma first_property_mismatch name ws first :
  all_chars is_word name = true ->
  all_chars space_cr_lf ws = true ->
  starts_outside space_cr_lf first ->
  strip "INTERFACE_LINK_LIBRARIES " first = None ->
  match_at set_target_properties_pattern
    ("set_target_properties(" ++ name ++ " PROPERTIES" ++ ws ++ first) = None.
Proof.
  intros Hname Hspace Hout Hstrip.
  unfold match_at, set_target_properties_pattern. rewrite rmatch_lit.
  assert (Hafter : forall caps,
             rmatch (Lit " PROPERTIES" ;; Plus space_cr_lf ;;
                     Lit "INTERFACE_LINK_LIBRARIES " ;; Lit quote ;;
                     Group (LazyStar dot_all) ;; Lit quote ;;
                     Star not_rparen ;; Lit ")")
                    (" PROPERTIES" ++ ws ++ first) caps
                    (fun s' caps' => Some (caps', s')) = None).
  { intros caps. rewrite rmatch_lit.
    destruct ws as [|w ws].
    - destruct first as [|c first]; [reflexivity|].
      cbn [starts_outside] in Hout. cbn [rmatch append]. now rewrite Hout.
    - cbn [all_chars] in Hspace. apply andb_true_iff in Hspace as [Hw Hspace].
      cbn [rmatch append]. rewrite Hw.
      apply star_greedy_stuck; [exact Hspace | | exact Hout].
      intros w1 w2 ->. rewrite all_chars_append in Hspace.
      apply andb_true_iff in Hspace as [_ Hw2].
      destruct w2 as [|c2 w2].
      + cbn [append]. now rewrite Hstrip.
      + cbn [all_chars] in Hw2. apply andb_true_iff in Hw2 as [Hc2 _].
        destruct (space_char_letter c2 Hc2) as [HI _].
        cbn [append strip]. rewrite Ascii.eqb_sym in HI. now rewrite HI. }
  destruct name as [|c name]; [reflexivity|].
  cbn [all_chars] in Hname. apply andb_true_iff in Hname as [Hc Hname].
  cbn [rmatch append]. rewrite Hc.
  apply star_greedy_stuck; [exact Hname | | reflexivity].
  intros m1 m2 ->. rewrite all_chars_append in Hname.
  apply andb_true_iff in Hname as [_ Hm2].
  destruct m2 as [|c2 m2].
  - apply Hafter.
  - cbn [all_chars] in Hm2. apply andb_true_iff in Hm2 as [Hc2 _].
    destruct (word_char_plain c2 Hc2) as [Hsp _].
    cbn [append strip]. rewrite Ascii.eqb_sym in Hsp. now rewrite Hsp.
Qed.

Lemma properties_over_space ws X :
  all_chars space_cr_lf ws = true ->
  findall set_target_properties_pattern (ws ++ X)
  = findall set_target_properties_pattern X.
Proof.
  induction ws as [|c ws IH]; [reflexivity|].
  cbn [all_chars]. intros H. apply andb_true_iff in H as [Hc Hws].
  cbn [append]. rewrite findall_gap; [now apply IH|].
  destruct (space_char_letter c Hc) as [_ Hs].
  unfold match_at, set_target_properties_pattern. cbn [rmatch strip].
  rewrite Ascii.eqb_sym in Hs. now rewrite Hs.
Qed.

(** X16.  Only the first property is read: when what follows
    [PROPERTIES] and its white space is not
    [INTERFACE_LINK_LIBRARIES ], the declaration gives no match, and
    the matches of the text are those found after that point. *)
Theorem properties_first_only name ws first :
  all_chars is_word name = true ->
  all_chars space_cr_lf ws = true ->
  starts_outside space_cr_lf first ->
  strip "INTERFACE_LINK_LIBRARIES " first = None ->
  set_target_properties_pattern_matches
    ("set_target_properties(" ++ name ++ " PROPERTIES" ++ ws ++ first)
  = set_target_properties_pattern_matches first.
Proof.
  intros Hname Hspace Hout Hstrip.
  unfold set_target_properties_pattern_matches. f_equal.
  change ("set_target_properties(" ++ name ++ " PROPERTIES" ++ ws ++ first)
    with (String "s" ("et_target_properties(" ++ name ++ " PROPERTIES" ++ ws ++ first)).
  rewrite findall_gap
    by exact (first_property_mismatch name ws first Hname Hspace Hout Hstrip).
  unfold set_target_properties_pattern. cbn [append]. pass_literal.
  rewrite (findall_blocked "(" _ _ name " ");
    [| now apply word_no_lparen | vm_compute; lia | reflexivity].
  pass_literal.
  now apply properties_over_space.
Qed.

Lemma properties_first_only_witness :
  all_chars is_word "LLVMSupport" = true /\
  all_chars space_cr_lf (nl ++ "  ") = true /\
  starts_outside space_cr_lf
    ("INTERFACE_COMPILE_FEATURES " ++ quote ++ "cxx_std_17" ++ quote ++ nl ++
     "  INTERFACE_LINK_LIBRARIES " ++ quote ++ "rt;dl" ++ quote ++ nl ++ ")" ++ nl) /\
  strip "INTERFACE_LINK_LIBRARIES "
    ("INTERFACE_COMPILE_FEATURES " ++ quote ++ "cxx_std_17" ++ quote ++ nl ++
     "  INTERFACE_LINK_LIBRARIES " ++ quote ++ "rt;dl" ++ quote ++ nl ++ ")" ++ nl)
  = None /\
  set_target_properties_pattern_matches
    ("set_target_properties(" ++ "LLVMSupport" ++ " PROPERTIES" ++ (nl ++ "  ") ++
     "INTERFACE_COMPILE_FEATURES " ++ quote ++ "cxx_std_17" ++ quote ++ nl ++
     "  INTERFACE_LINK_LIBRARIES " ++ quote ++ "rt;dl" ++ quote ++ nl ++ ")" ++ nl)
  = [].
Proof.
  repeat (split; [reflexivity|]).
  exact (properties_first_only "LLVMSupport" (nl ++ "  ")
           ("INTERFACE_COMPILE_FEATURES " ++ quote ++ "cxx_std_17" ++ quote ++ nl ++
            "  INTERFACE_LINK_LIBRARIES " ++ quote ++ "rt;dl" ++ quote ++ nl ++ ")" ++ nl)
           eq_refl eq_refl eq_refl eq_refl).
Defined.

(** ** What the output quotes *)

Lemma classify_fold_all (q : string -> bool) lib_deps :
  (forall dep flag, dict_get system_library_map dep = Some flag -> q flag = true) ->
  (forall dep label, dict_get dep_map dep = Some label -> q label = true) ->
  forallb q lib_deps = true ->
  forall acc,
    forallb q (link_opts acc) = true ->
    forallb q (external_deps acc) = true ->
    forallb q (internal_deps acc) = true ->
    forallb q (link_opts (fold_left classify_dep lib_deps acc)) = true /\
    forallb q (external_deps (fold_left classify_dep lib_deps acc)) = true /\
    forallb q (internal_deps (fold_left classify_dep lib_deps acc)) = true.
Proof.
  intros Hsys Hdep. induction lib_deps as [|dep deps IH]; intros Hall acc Hl He Hi.
  - now repeat split.
  - cbn [forallb] in Hall. apply andb_true_iff in Hall as [Hq Hall].
    cbn [fold_left]. apply (IH Hall); unfold classify_dep;
      destruct (dict_get system_library_map dep) as [flag|] eqn:Es;
      [| destruct (dict_get dep_map dep) as [label|] eqn:Ed
       | | destruct (dict_get dep_map dep) as [label|] eqn:Ed
       | | destruct (dict_get dep_map dep) as [label|] eqn:Ed ];
      cbn [link_opts external_deps internal_deps]; try assumption;
      rewrite forallb_app; cbn [forallb].
    + now rewrite Hl, (Hsys dep flag Es).
    + now rewrite He, (Hdep dep label Ed).
    + now rewrite Hi, Hq.
Qed.

Lemma system_library_map_plain dep flag :
  dict_get system_library_map dep = Some flag ->
  all_chars (is_not (chr 34)) flag = true.
Proof.
  unfold system_library_map. cbn [dict_get].
  repeat match goal with
         | |- context [if ?b then _ else _] => destruct b
         end;
    intros H; inversion H; reflexivity.
Qed.

Lemma dep_map_plain dep label :
  dict_get dep_map dep = Some label ->
  all_chars (is_not (chr 34)) label = true.
Proof.
  unfold dep_map. cbn [dict_get].
  repeat match goal with
         | |- context [if ?b then _ else _] => destruct b
         end;
    intros H; inversion H; reflexivity.
Qed.

(** X17.  Nothing that the output puts between double quotes holds a
    double quote: for every text and every library of its mapping, the
    name, the flags, the external labels and the internal dependencies
    that the inner loop collects are all free of it. *)
Theorem quoted_items_hold_no_quote contents :
  forallb (fun lib =>
             all_chars (is_not (chr 34)) (fst lib)
             && forallb (all_chars (is_not (chr 34)))
                        (link_opts (classify_deps (snd lib)))
             && forallb (all_chars (is_not (chr 34)))
                        (external_deps (classify_deps (snd lib)))
             && forallb (all_chars (is_not (chr 34)))
                        (internal_deps (classify_deps (snd lib))))
          (extract_libraries contents) = true.
Proof.
  apply forallb_forall. intros [X deps] Hin. cbn [fst snd].
  assert (HX : all_chars (is_not (chr 34)) X = true).
  { apply occurrences_none, word_no_quote.
    apply (key_is_word contents X). unfold dict_keys.
    change X with (fst (X, deps)). now apply in_map. }
  assert (Hdeps : forallb (all_chars (is_not (chr 34))) deps = true).
  { apply forallb_forall. intros token Htoken.
    now apply (token_is_plain contents X deps token Hin Htoken). }
  destruct (classify_fold_all (all_chars (is_not (chr 34))) deps
              system_library_map_plain dep_map_plain Hdeps
              {| link_opts := []; external_deps := []; internal_deps := [] |}
              eq_refl eq_refl eq_refl) as (Hl & He & Hi).
  unfold classify_deps. now rewrite HX, Hl, He, Hi.
Qed.
